(** * video-downloader: a shallow embedding of the acquisition pipeline

    The development follows the Python modules of the repository:
    - [PyStr]      the operations of Python's [str] that the code relies on;
    - [Binary64]   the arithmetic of Python's [float] that the report uses;
    - [Optimized]  src/optimized_video_downloader.py (site detection, the
                   per-site format chain, the batch report, the listing);
    - [Config]     src/config.py (the static site table, its detection, and
                   the choice of a user agent);
    - [Main]       src/main_downloader.py (the interactive loop and the
                   verdict of the command-line mode);
    - [Downloader] src/video_downloader.py (file-name sanitising, handler
                   selection, fetching, and the post-processing of files).

    External programs (yt-dlp, ffmpeg, ffprobe, the HTTP client) are not
    re-implemented: each is a variable of the section that uses it, and the
    code's reaction to each of their possible outcomes is what is modelled. *)

From Stdlib Require Import ZArith QArith Qpower Qround Lia Lqa Floats Ascii DecimalString DecimalNat Strings.Byte.
From stdpp Require Import base list gmap strings.

Local Open Scope Z_scope.

(** ** Python strings *)

Module PyStr.

(** A Python [str] is a sequence of Unicode code points. *)
Definition char := N.
Definition pystr := list char.

(** An ASCII literal of the source. *)
Definition lit (s : string) : pystr :=
  Ascii.N_of_ascii <$> String.list_ascii_of_string s.

Global Arguments lit : simpl never.

Definition char_eqb (a b : char) : bool := N.eqb a b.

Fixpoint eqb (s t : pystr) : bool :=
  match s, t with
  | [], [] => true
  | a :: s', b :: t' => char_eqb a b && eqb s' t'
  | _, _ => false
  end.

(** [s.startswith(p)] *)
Fixpoint startswith (p s : pystr) : bool :=
  match p, s with
  | [], _ => true
  | a :: p', b :: s' => char_eqb a b && startswith p' s'
  | _ :: _, [] => false
  end.

(** [needle in hay] *)
Fixpoint contains (needle hay : pystr) : bool :=
  startswith needle hay ||
  match hay with
  | [] => false
  | _ :: hay' => contains needle hay'
  end.

(** [s.endswith(p)] *)
Definition endswith (p s : pystr) : bool :=
  startswith (reverse p) (reverse s).

(** [c in s] for a single character. *)
Definition has_char (c : char) (s : pystr) : bool :=
  existsb (char_eqb c) s.

(** [s.split(sep)[0]] for a non-empty [sep]: the text before the first
    occurrence of [sep], or all of [s] when there is none. *)
Fixpoint before_first (sep s : pystr) : pystr :=
  match s with
  | [] => []
  | c :: s' => if startswith sep s then [] else c :: before_first sep s'
  end.

(** [s.split(c)] for a one-character separator. *)
Fixpoint split_char (c : char) (s : pystr) : list pystr :=
  match s with
  | [] => [[]]
  | a :: s' =>
      if char_eqb a c then [] :: split_char c s'
      else match split_char c s' with
           | [] => [[a]]
           | f :: fs => (a :: f) :: fs
           end
  end.

(** [str.isspace] on one code point. *)
Definition isspace (c : char) : bool :=
  ((9 <=? c) && (c <=? 13) || (28 <=? c) && (c <=? 32) ||
   (c =? 133) || (c =? 160) || (c =? 5760) ||
   (8192 <=? c) && (c <=? 8202) ||
   (c =? 8232) || (c =? 8233) || (c =? 8239) || (c =? 8287) ||
   (c =? 12288))%N.

Fixpoint lstrip (s : pystr) : pystr :=
  match s with
  | [] => []
  | c :: s' => if isspace c then lstrip s' else s
  end.

Definition rstrip (s : pystr) : pystr := reverse (lstrip (reverse s)).

(** [s.strip()] *)
Definition strip (s : pystr) : pystr := rstrip (lstrip s).

(** [s.lower()].  The ASCII capitals map to their small letters; U+212A
    (KELVIN SIGN) and U+0130 are the only other code points whose lower
    case contains an ASCII character.  Every remaining code point is mapped
    by Python to non-ASCII text, so leaving it in place changes no
    comparison against the ASCII literals of the source. *)
Definition lower_char (c : char) : pystr :=
  if ((65 <=? c) && (c <=? 90))%N then [(c + 32)%N]
  else if (c =? 8490)%N then [107%N]
  else if (c =? 304)%N then [105%N; 775%N]
  else [c].

Definition lower (s : pystr) : pystr := s ≫= lower_char.

(** [str(n)] for a non-negative integer. *)
Definition str_of_nat (n : nat) : pystr :=
  lit (NilEmpty.string_of_uint (Nat.to_uint n)).

(** [str(z)] for an integer. *)
Definition str_of_Z (z : Z) : pystr :=
  if z <? 0 then lit "-" ++ str_of_nat (Z.to_nat (- z))
  else str_of_nat (Z.to_nat z).

(** [s[:n]] for [n >= 0]. *)
Definition slice_to (n : nat) (s : pystr) : pystr := take n s.

(** [key in [k1, k2, ...]] for a list of strings. *)
Definition mem (s : pystr) (l : list pystr) : bool := existsb (eqb s) l.

(** Python's [int] on a text of ASCII digits with an optional sign and
    white space around it; [None] for any other text.  The closed examples
    use it where the code calls [int]. *)
Definition digit_value (c : char) : option Z :=
  if ((48 <=? c) && (c <=? 57))%N then Some (Z.of_N c - 48) else None.

Fixpoint digits_value (acc : Z) (s : pystr) : option Z :=
  match s with
  | [] => Some acc
  | c :: s' =>
      match digit_value c with
      | Some d => digits_value (10 * acc + d) s'
      | None => None
      end
  end.

Definition int_ascii (s : pystr) : option Z :=
  match strip s with
  | [] => None
  | 45%N :: (_ :: _) as ds => Z.opp <$> digits_value 0 (tail ds)
  | 43%N :: (_ :: _) as ds => digits_value 0 (tail ds)
  | ds => digits_value 0 ds
  end.

(** A world that answers the calls made to it from a prepared list, in
    order: the stand-in for an external program in the closed examples. *)
Definition scripted {A B : Type} (dflt : B) (_ : A) (w : list B) : B * list B :=
  match w with
  | b :: rest => (b, rest)
  | [] => (dflt, [])
  end.

(** *** Facts about the string operations *)

Lemma char_eqb_eq a b : char_eqb a b = true ↔ a = b.
Proof. apply N.eqb_eq. Qed.

Lemma eqb_eq s t : eqb s t = true ↔ s = t.
Proof.
  revert t. induction s as [|a s IH]; intros [|b t]; simpl; try easy.
  rewrite andb_true_iff, char_eqb_eq, IH. split.
  - intros [-> ->]. reflexivity.
  - intros [= -> ->]. auto.
Qed.

Lemma eqb_refl s : eqb s s = true.
Proof. apply eqb_eq. reflexivity. Qed.

Lemma startswith_spec p s : startswith p s = true ↔ ∃ t, s = p ++ t.
Proof.
  revert s. induction p as [|a p IH]; intros s; simpl.
  - split; eauto.
  - destruct s as [|b s].
    + split; [discriminate | intros [t [=]]].
    + rewrite andb_true_iff, char_eqb_eq, IH. split.
      * intros [-> [t ->]]. eauto.
      * intros [t [= -> ->]]. eauto.
Qed.

(** [needle in hay] holds exactly when [hay] is some text, then [needle],
    then some text. *)
Lemma contains_spec needle hay :
  contains needle hay = true ↔ ∃ pre post, hay = pre ++ needle ++ post.
Proof.
  induction hay as [|c hay IH]; simpl.
  - rewrite orb_false_r, startswith_spec. split.
    + intros [t ->]. exists [], t. reflexivity.
    + intros [pre [post H]]. symmetry in H.
      apply app_eq_nil in H as [-> H]. exists post. auto.
  - rewrite orb_true_iff, startswith_spec, IH. split.
    + intros [[t ->] | [pre [post ->]]].
      * exists [], t. reflexivity.
      * exists (c :: pre), post. reflexivity.
    + intros [[|c' pre] [post H]].
      * left. exists post. exact H.
      * right. injection H as -> ->. eauto.
Qed.

(** A text found in a part of [s] is found in [s]. *)
Lemma contains_app needle pre mid post :
  contains needle mid = true → contains needle (pre ++ mid ++ post) = true.
Proof.
  rewrite !contains_spec. intros [a [b ->]].
  exists (pre ++ a), (b ++ post). by rewrite <- !app_assoc.
Qed.

Lemma lit_inj s t : lit s = lit t → s = t.
Proof.
  unfold lit. intros H.
  rewrite <- (String.string_of_list_ascii_of_string s),
          <- (String.string_of_list_ascii_of_string t).
  f_equal. revert H.
  generalize (String.list_ascii_of_string s) (String.list_ascii_of_string t).
  intros l. induction l as [|a l IH]; intros [|b m]; simpl; try easy.
  intros [= Hab Hlm]. f_equal; [|auto].
  rewrite <- (ascii_N_embedding a), <- (ascii_N_embedding b). by f_equal.
Qed.

(** Distinct numbers are written differently. *)
Lemma str_of_nat_inj n m : str_of_nat n = str_of_nat m → n = m.
Proof.
  unfold str_of_nat. intros H. apply lit_inj in H.
  rewrite <- (Unsigned.of_to n), <- (Unsigned.of_to m). f_equal.
  pose proof (NilEmpty.usu (Nat.to_uint n)) as Hn.
  pose proof (NilEmpty.usu (Nat.to_uint m)) as Hm.
  rewrite H in Hn. rewrite Hn in Hm. by injection Hm.
Qed.

End PyStr.

Import PyStr.

(** ** URLs *)

Module Url.

(** The [netloc] of [urllib.parse.urlparse(url)], for a [url] on which
    [urlparse] does not raise: leading control characters and spaces are
    dropped, tabs and line breaks removed, a scheme (a letter followed by
    letters, digits, [+], [-] or [.], up to the first colon) is split off,
    and when what remains starts with [//] the host part runs up to the
    first [/], [?] or [#]. *)

Definition is_ascii_alpha (c : char) : bool :=
  ((65 <=? c) && (c <=? 90) || (97 <=? c) && (c <=? 122))%N.

Definition is_scheme_char (c : char) : bool :=
  is_ascii_alpha c || ((48 <=? c) && (c <=? 57))%N ||
  (c =? 43)%N || (c =? 45)%N || (c =? 46)%N.

Definition is_c0_or_space (c : char) : bool := (c <=? 32)%N.

Definition is_tab_or_newline (c : char) : bool :=
  ((c =? 9) || (c =? 10) || (c =? 13))%N.

Fixpoint lstrip_c0 (u : pystr) : pystr :=
  match u with
  | [] => []
  | c :: u' => if is_c0_or_space c then lstrip_c0 u' else u
  end.

Definition clean (u : pystr) : pystr :=
  List.filter (λ c, negb (is_tab_or_newline c)) (lstrip_c0 u).

(** [u.find(':')], with [None] for [-1]. *)
Fixpoint find_char (c : char) (u : pystr) : option nat :=
  match u with
  | [] => None
  | a :: u' => if char_eqb a c then Some 0%nat else S <$> find_char c u'
  end.

(** The text after the scheme and its colon, or all of [u] when [u] does
    not start with a scheme. *)
Definition after_scheme (u : pystr) : pystr :=
  match find_char 58%N u, u with
  | Some (S i), c :: _ =>
      if is_ascii_alpha c && forallb is_scheme_char (take (S i) u)
      then drop (S (S i)) u else u
  | _, _ => u
  end.

(** [urlparse(u).scheme]: the scheme in lower case, or the empty text. *)
Definition scheme (u : pystr) : pystr :=
  let u := clean u in
  match find_char 58%N u, u with
  | Some (S i), c :: _ =>
      if is_ascii_alpha c && forallb is_scheme_char (take (S i) u)
      then lower (take (S i) u) else []
  | _, _ => []
  end.

(** [_splitnetloc(url, 2)]: up to the first of [/], [?] and [#]. *)
Fixpoint until_delim (u : pystr) : pystr :=
  match u with
  | [] => []
  | c :: u' =>
      if ((c =? 47) || (c =? 63) || (c =? 35))%N then [] else c :: until_delim u'
  end.

Definition netloc (u : pystr) : pystr :=
  let rest := after_scheme (clean u) in
  if startswith (lit "//") rest then until_delim (drop 2 rest) else [].

(** The netloc is a part of the URL, provided the URL holds no tab or line
    break for [urlparse] to remove. *)
Lemma until_delim_prefix u : ∃ t, u = until_delim u ++ t.
Proof.
  induction u as [|c u [t IH]]; simpl.
  - by exists [].
  - destruct (_ || _)%N.
    + by exists (c :: u).
    + exists t. simpl. by f_equal.
Qed.

Lemma lstrip_c0_suffix u : ∃ p, u = p ++ lstrip_c0 u.
Proof.
  induction u as [|c u [p IH]]; simpl.
  - by exists [].
  - destruct (is_c0_or_space c).
    + exists (c :: p). simpl. by f_equal.
    + by exists [].
Qed.

Lemma filter_all {A} (f : A → bool) l : forallb f l = true → List.filter f l = l.
Proof.
  induction l as [|a l IH]; simpl; [done|].
  destruct (f a); simpl; [|done]. intros H. by rewrite IH.
Qed.

Lemma forallb_suffix {A} (f : A → bool) p l :
  forallb f (p ++ l) = true → forallb f l = true.
Proof. rewrite forallb_app, andb_true_iff. tauto. Qed.

Lemma after_scheme_suffix u : ∃ p, u = p ++ after_scheme u.
Proof.
  unfold after_scheme.
  destruct (find_char _ u) as [[|i]|]; try by exists [].
  destruct u as [|c u]; [by exists [] |].
  destruct (_ && _); [|by exists []].
  exists (take (S (S i)) (c :: u)). by rewrite take_drop.
Qed.

Lemma netloc_in_url u :
  forallb (λ c, negb (is_tab_or_newline c)) u = true →
  ∃ pre post, u = pre ++ netloc u ++ post.
Proof.
  intros Hu. unfold netloc, clean.
  destruct (lstrip_c0_suffix u) as [p0 Hp0].
  assert (Hf : List.filter (λ c, negb (is_tab_or_newline c)) (lstrip_c0 u)
               = lstrip_c0 u).
  { apply filter_all. rewrite Hp0 in Hu. by apply forallb_suffix in Hu. }
  rewrite Hf.
  destruct (after_scheme_suffix (lstrip_c0 u)) as [p1 Hp1].
  destruct (startswith _ _) eqn:Hs.
  - apply startswith_spec in Hs as [t Ht].
    rewrite Ht in Hp1 |- *.
    change (drop 2 (lit "//" ++ t)) with t.
    destruct (until_delim_prefix t) as [q Hq].
    exists (p0 ++ p1 ++ lit "//"), q.
    rewrite <- !app_assoc, <- Hq, <- Hp1. exact Hp0.
  - exists u, []. by rewrite !app_nil_r.
Qed.

End Url.


(** ** Python floats

    A Python [float] is an IEEE 754 binary64 number, and every finite one is
    a rational: the floats of this development are kept as the rationals
    they denote.  The results of the operations are rounded to the nearest
    binary64 number, ties to the one with an even last bit.  Only values that
    are not negative and stay below the overflow threshold occur. *)

Module Binary64.

Local Open Scope Q_scope.

(** The integer nearest to [q], the even one of two that are equally near. *)
Definition rne (q : Q) : Z :=
  let f := Qfloor q in
  match Qcompare (q - inject_Z f) (1 # 2) with
  | Lt => f
  | Gt => (f + 1)%Z
  | Eq => if Z.even f then f else (f + 1)%Z
  end.

(** [floor (log2 q)] for a positive [q]. *)
Definition ilog2 (q : Q) : Z :=
  let k := (Z.log2 (Qnum q) - Z.log2 (Z.pos (Qden q)))%Z in
  if Qle_bool (2 ^ k) q then k else (k - 1)%Z.

(** The binary64 number nearest to [q] (ties to even), for [0 <= q] below
    the overflow threshold: 53 significant bits, and no exponent below
    -1074. *)
(** The exponent of the last place of a binary64 number next to a
    positive [q]: 53 significant bits, and no exponent below -1074. *)
Definition fexp (q : Q) : Z := Z.max (ilog2 q - 52) (-1074).

(** The binary64 number nearest to [q] (ties to even), for [0 <= q] below
    the overflow threshold. *)
Definition round64 (q : Q) : Q :=
  if Qle_bool q 0 then 0
  else inject_Z (rne (q / 2 ^ fexp q)) * 2 ^ fexp q.

Lemma inject_Z_le_inv a b : inject_Z a <= inject_Z b -> (a <= b)%Z.
Proof. rewrite <- Zle_Qle. auto. Qed.

Lemma inject_Z_lt_inv a b : inject_Z a < inject_Z b -> (a < b)%Z.
Proof. rewrite <- Zlt_Qlt. auto. Qed.

Lemma rne_floor q : rne q = Qfloor q \/ rne q = (Qfloor q + 1)%Z.
Proof.
  unfold rne. cbv zeta. destruct (Qcompare _ _); [destruct (Z.even _)|..]; auto.
Qed.

Lemma rne_le q M : q <= inject_Z M -> (rne q <= M)%Z.
Proof.
  intros H. pose proof (Qfloor_le q) as Hf.
  assert (Hfm : (Qfloor q <= M)%Z).
  { apply inject_Z_le_inv. lra. }
  destruct (Z.eq_dec (Qfloor q) M) as [E|E].
  - unfold rne. cbv zeta.
    destruct (Qcompare_spec (q - inject_Z (Qfloor q)) (1 # 2)) as [H1|H1|H1].
    + rewrite E in H1. lra.
    + lia.
    + rewrite E in H1. lra.
  - destruct (rne_floor q) as [-> | ->]; lia.
Qed.

Lemma rne_ge q M : inject_Z M <= q -> (M <= rne q)%Z.
Proof.
  intros H. pose proof (Qlt_floor q) as Hf.
  assert (Hfm : (M < Qfloor q + 1)%Z).
  { apply inject_Z_lt_inv. lra. }
  destruct (rne_floor q) as [-> | ->]; lia.
Qed.

Lemma rne_gt_half q M : inject_Z M + (1 # 2) < q -> (M + 1 <= rne q)%Z.
Proof.
  intros H. pose proof (Qlt_floor q) as Hf.
  assert (Hfm : (M < Qfloor q + 1)%Z).
  { apply inject_Z_lt_inv. lra. }
  destruct (Z.eq_dec (Qfloor q) M) as [E|E].
  - unfold rne. cbv zeta.
    destruct (Qcompare_spec (q - inject_Z (Qfloor q)) (1 # 2)) as [H1|H1|H1].
    + rewrite E in H1. lra.
    + rewrite E in H1. lra.
    + lia.
  - destruct (rne_floor q) as [-> | ->]; lia.
Qed.

Lemma rne_error q :
  inject_Z (rne q) - (1 # 2) <= q /\ q <= inject_Z (rne q) + (1 # 2).
Proof.
  pose proof (Qfloor_le q) as Hf. pose proof (Qlt_floor q) as Hf'.
  rewrite inject_Z_plus in Hf'. change (inject_Z 1) with 1 in Hf'.
  unfold rne. cbv zeta.
  destruct (Qcompare_spec (q - inject_Z (Qfloor q)) (1 # 2)) as [H1|H1|H1].
  - destruct (Z.even _); [|rewrite inject_Z_plus; change (inject_Z 1) with 1];
      split; lra.
  - split; lra.
  - rewrite inject_Z_plus. change (inject_Z 1) with 1. split; lra.
Qed.

Lemma two_ne_0 : ~ 2 == 0.
Proof. lra. Qed.

Lemma pow2_pos e : 0 < 2 ^ e.
Proof. apply Qpower_0_lt. lra. Qed.

Lemma pow2_add a b : 2 ^ (a + b) == 2 ^ a * 2 ^ b.
Proof. apply Qpower_plus, two_ne_0. Qed.

Lemma pow2_le a b : (a <= b)%Z -> 2 ^ a <= 2 ^ b.
Proof. intros H. apply Qpower_le_compat_l; [exact H | lra]. Qed.

Lemma pow2_lt a b : (a < b)%Z -> 2 ^ a < 2 ^ b.
Proof. intros H. apply Qpower_lt_compat_l; [exact H | lra]. Qed.

Lemma pow2_Z n : (0 <= n)%Z -> inject_Z (2 ^ n) == 2 ^ n.
Proof. intros H. apply (Zpower_Qpower 2 n H). Qed.

Lemma pow2_S a : 2 ^ (a + 1) == 2 * 2 ^ a.
Proof. rewrite pow2_add. change (2 ^ 1) with 2. lra. Qed.

Lemma ilog2_spec q : 0 < q -> 2 ^ ilog2 q <= q /\ q < 2 ^ (ilog2 q + 1).
Proof.
  intros Hq. destruct q as [n d].
  assert (Hn : (0 < n)%Z).
  { unfold Qlt in Hq. simpl in Hq. lia. }
  unfold ilog2. cbn [Qnum Qden].
  set (ln := Z.log2 n). set (ld := Z.log2 (Z.pos d)).
  pose proof (Z.log2_spec n Hn) as [Hn1 Hn2]. fold ln in Hn1, Hn2.
  pose proof (Z.log2_spec (Z.pos d) eq_refl) as [Hd1 Hd2]. fold ld in Hd1, Hd2.
  pose proof (Z.log2_nonneg n) as Hln. fold ln in Hln.
  pose proof (Z.log2_nonneg (Z.pos d)) as Hld. fold ld in Hld.
  assert (HA : inject_Z (2 ^ ln) == 2 ^ ln) by (by apply pow2_Z).
  assert (HB : inject_Z (2 ^ ld) == 2 ^ ld) by (by apply pow2_Z).
  assert (HA1 : 2 ^ ln <= inject_Z n) by (rewrite <- HA, <- Zle_Qle; exact Hn1).
  assert (HA2 : inject_Z n < 2 * 2 ^ ln).
  { rewrite <- pow2_S, <- pow2_Z by lia. rewrite <- Zlt_Qlt.
    replace (ln + 1)%Z with (Z.succ ln) by lia. exact Hn2. }
  assert (HB1 : 2 ^ ld <= inject_Z (Z.pos d)) by (rewrite <- HB, <- Zle_Qle; exact Hd1).
  assert (HB2 : inject_Z (Z.pos d) < 2 * 2 ^ ld).
  { rewrite <- pow2_S, <- pow2_Z by lia. rewrite <- Zlt_Qlt.
    replace (ld + 1)%Z with (Z.succ ld) by lia. exact Hd2. }
  assert (Hk : 2 ^ ln == 2 ^ (ln - ld) * 2 ^ ld).
  { rewrite <- pow2_add. replace (ln - ld + ld)%Z with ln by lia. reflexivity. }
  assert (Hk1 : 2 ^ (ln - ld + 1) == 2 * 2 ^ (ln - ld)) by apply pow2_S.
  assert (Hk0 : 2 ^ (ln - ld) == 2 * 2 ^ (ln - ld - 1)).
  { rewrite <- pow2_S. replace (ln - ld - 1 + 1)%Z with (ln - ld)%Z by lia.
    reflexivity. }
  pose proof (pow2_pos (ln - ld)) as Hx. pose proof (pow2_pos ld) as HBp.
  pose proof (pow2_pos (ln - ld - 1)) as Hx0.
  assert (Hq' : (n # d) * inject_Z (Z.pos d) == inject_Z n).
  { rewrite (Qmake_Qdiv n d). field. intros E.
    assert (0 < inject_Z (Z.pos d)) by (rewrite <- (Zlt_Qlt 0); lia). lra. }
  assert (HD : 0 < inject_Z (Z.pos d)) by (rewrite <- (Zlt_Qlt 0); lia).
  clear Hq HA HB Hn1 Hn2 Hd1 Hd2.
  remember (inject_Z (Z.pos d)) as D eqn:ED. remember (inject_Z n) as N eqn:EN.
  remember (n # d) as q eqn:Eq. clear ED EN Eq.
  destruct (Qle_bool (2 ^ (ln - ld)) q) eqn:E.
  - apply Qle_bool_iff in E. split; [exact E|].
    rewrite Hk1. nra.
  - assert (E' : q < 2 ^ (ln - ld)).
    { apply Qnot_le_lt. intros H. apply Qle_bool_iff in H. congruence. }
    replace (ln - ld - 1 + 1)%Z with (ln - ld)%Z by lia.
    split; [|exact E']. nra.
Qed.

Lemma round64_pos q :
  0 < q -> round64 q = inject_Z (rne (q / 2 ^ fexp q)) * 2 ^ fexp q.
Proof.
  intros H. unfold round64. destruct (Qle_bool q 0) eqn:E; [|reflexivity].
  apply Qle_bool_iff in E. lra.
Qed.

Lemma round64_nonpos q : q <= 0 -> round64 q = 0.
Proof.
  intros H. unfold round64. destruct (Qle_bool q 0) eqn:E; [reflexivity|].
  apply Qle_bool_iff in H. congruence.
Qed.

Lemma div_pow2 q e : q / 2 ^ e * 2 ^ e == q.
Proof. pose proof (pow2_pos e). field. lra. Qed.

Lemma scaled_ge q :
  0 < q -> (-1074 < fexp q)%Z -> inject_Z (2 ^ 52) <= q / 2 ^ fexp q.
Proof.
  intros Hq He. assert (E : fexp q = (ilog2 q - 52)%Z) by (unfold fexp in *; lia).
  destruct (ilog2_spec q Hq) as [H1 _].
  rewrite pow2_Z by lia.
  apply Qle_shift_div_l; [apply pow2_pos|].
  rewrite <- pow2_add, E. replace (52 + (ilog2 q - 52))%Z with (ilog2 q) by lia.
  exact H1.
Qed.

Lemma round64_nonneg q : 0 <= round64 q.
Proof.
  destruct (Qlt_le_dec 0 q) as [Hq|Hq].
  - rewrite round64_pos by done.
    pose proof (pow2_pos (fexp q)) as Hp.
    assert (H0 : (0 <= rne (q / 2 ^ fexp q))%Z).
    { apply rne_ge. change (inject_Z 0) with 0.
      apply Qle_shift_div_l; [done | lra]. }
    rewrite Zle_Qle in H0. change (inject_Z 0) with 0 in H0. nra.
  - rewrite round64_nonpos by done. lra.
Qed.

(** Rounding does not cross a binary64 number: a bound that is one,
    [M * 2 ^ ec] with at most 53 bits in [M], bounds the rounded value as
    well. *)
Lemma round64_le q M ec :
  q <= inject_Z M * 2 ^ ec -> (0 <= M <= 2 ^ 53)%Z -> (-1074 <= ec)%Z ->
  round64 q <= inject_Z M * 2 ^ ec.
Proof.
  intros Hc HM Hec.
  pose proof (pow2_pos ec) as Hpc.
  assert (HM0 : 0 <= inject_Z M) by (rewrite <- (Zle_Qle 0); lia).
  destruct (Qlt_le_dec 0 q) as [Hq|Hq].
  2:{ rewrite round64_nonpos by done. nra. }
  rewrite round64_pos by done.
  pose proof (pow2_pos (fexp q)) as Hpe.
  destruct (Z_le_gt_dec (fexp q) ec) as [Hle|Hgt].
  - assert (HK : inject_Z (M * 2 ^ (ec - fexp q)) * 2 ^ fexp q == inject_Z M * 2 ^ ec).
    { rewrite inject_Z_mult, pow2_Z by lia.
      rewrite <- Qmult_assoc, <- pow2_add.
      replace (ec - fexp q + fexp q)%Z with ec by lia. reflexivity. }
    assert (Hr : (rne (q / 2 ^ fexp q) <= M * 2 ^ (ec - fexp q))%Z).
    { apply rne_le. apply Qle_shift_div_r; [done|]. rewrite HK. exact Hc. }
    rewrite Zle_Qle in Hr. rewrite <- HK. nra.
  - assert (Hs : inject_Z (2 ^ 52) <= q / 2 ^ fexp q) by (apply scaled_ge; [done | lia]).
    assert (HM53 : inject_Z M <= inject_Z (2 ^ 53)) by (rewrite <- Zle_Qle; lia).
    assert (Hp : 2 ^ (ec + 1) <= 2 ^ fexp q) by (apply pow2_le; lia).
    rewrite pow2_S in Hp.
    assert (Hr : (rne (q / 2 ^ fexp q) <= 2 ^ 52)%Z).
    { apply rne_le. apply Qle_shift_div_r; [done|].
      change (inject_Z (2 ^ 53)) with (2 * inject_Z (2 ^ 52)) in HM53.
      assert (0 < inject_Z (2 ^ 52)) by (by vm_compute). nra. }
    rewrite Zle_Qle in Hr.
    assert (Hq2 : inject_Z (2 ^ 52) * 2 ^ fexp q <= q).
    { pose proof (div_pow2 q (fexp q)). nra. }
    nra.
Qed.

Lemma round64_ge q M ec :
  inject_Z M * 2 ^ ec <= q -> (0 <= M <= 2 ^ 53)%Z -> (-1074 <= ec)%Z ->
  inject_Z M * 2 ^ ec <= round64 q.
Proof.
  intros Hc HM Hec.
  pose proof (pow2_pos ec) as Hpc.
  assert (HM0 : 0 <= inject_Z M) by (rewrite <- (Zle_Qle 0); lia).
  destruct (Qlt_le_dec 0 q) as [Hq|Hq].
  2:{ rewrite round64_nonpos by done. nra. }
  rewrite round64_pos by done.
  pose proof (pow2_pos (fexp q)) as Hpe.
  destruct (Z_le_gt_dec (fexp q) ec) as [Hle|Hgt].
  - assert (HK : inject_Z (M * 2 ^ (ec - fexp q)) * 2 ^ fexp q == inject_Z M * 2 ^ ec).
    { rewrite inject_Z_mult, pow2_Z by lia.
      rewrite <- Qmult_assoc, <- pow2_add.
      replace (ec - fexp q + fexp q)%Z with ec by lia. reflexivity. }
    assert (Hr : (M * 2 ^ (ec - fexp q) <= rne (q / 2 ^ fexp q))%Z).
    { apply rne_ge. apply Qle_shift_div_l; [done|]. rewrite HK. exact Hc. }
    rewrite Zle_Qle in Hr. rewrite <- HK. nra.
  - assert (Hs : inject_Z (2 ^ 52) <= q / 2 ^ fexp q) by (apply scaled_ge; [done | lia]).
    assert (HM53 : inject_Z M <= inject_Z (2 ^ 53)) by (rewrite <- Zle_Qle; lia).
    assert (Hp : 2 ^ (ec + 1) <= 2 ^ fexp q) by (apply pow2_le; lia).
    rewrite pow2_S in Hp.
    assert (Hr : (2 ^ 52 <= rne (q / 2 ^ fexp q))%Z) by (by apply rne_ge).
    rewrite Zle_Qle in Hr.
    change (inject_Z (2 ^ 53)) with (2 * inject_Z (2 ^ 52)) in HM53.
    assert (0 < inject_Z (2 ^ 52)) by (by vm_compute). nra.
Qed.

(** Above the midpoint between a binary64 number and the next one, the
    rounded value is at least the next one. *)
Lemma round64_succ q M ec :
  inject_Z M * 2 ^ ec + (1 # 2) * 2 ^ ec < q ->
  (2 ^ 52 <= M < 2 ^ 53)%Z -> (-1074 <= ec)%Z ->
  inject_Z (M + 1) * 2 ^ ec <= round64 q.
Proof.
  intros Hc HM Hec.
  pose proof (pow2_pos ec) as Hpc.
  assert (HM52 : inject_Z (2 ^ 52) <= inject_Z M) by (rewrite <- Zle_Qle; lia).
  assert (H52 : 0 < inject_Z (2 ^ 52)) by (by vm_compute).
  assert (HMY : 0 <= inject_Z M * 2 ^ ec) by (apply Qmult_le_0_compat; lra).
  assert (Hq : 0 < q) by lra.
  rewrite round64_pos by done.
  pose proof (pow2_pos (fexp q)) as Hpe.
  assert (Hlog : (ec + 52 <= ilog2 q)%Z).
  { destruct (ilog2_spec q Hq) as [_ H2].
    assert (H3 : 2 ^ (ec + 52) < 2 ^ (ilog2 q + 1)).
    { rewrite (Z.add_comm ec 52), pow2_add, <- pow2_Z by lia. nra. }
    apply Qpower_lt_compat_l_inv in H3; [lia | lra]. }
  assert (Hfe : (ec <= fexp q)%Z) by (unfold fexp; lia).
  assert (HM1 : inject_Z (M + 1) == inject_Z M + 1).
  { rewrite inject_Z_plus. reflexivity. }
  destruct (Z.eq_dec (fexp q) ec) as [E|E].
  - rewrite E in *.
    assert (Hr : (M + 1 <= rne (q / 2 ^ ec))%Z).
    { apply rne_gt_half. apply Qlt_shift_div_l; [done|]. nra. }
    rewrite Zle_Qle in Hr. nra.
  - assert (Hs : inject_Z (2 ^ 52) <= q / 2 ^ fexp q) by (apply scaled_ge; [done | lia]).
    assert (Hr : (2 ^ 52 <= rne (q / 2 ^ fexp q))%Z) by (by apply rne_ge).
    rewrite Zle_Qle in Hr.
    assert (Hp : 2 ^ (ec + 1) <= 2 ^ fexp q) by (apply pow2_le; lia).
    rewrite pow2_S in Hp.
    assert (HM53 : inject_Z (M + 1) <= inject_Z (2 ^ 53)) by (rewrite <- Zle_Qle; lia).
    change (inject_Z (2 ^ 53)) with (2 * inject_Z (2 ^ 52)) in HM53.
    nra.
Qed.

(** [a / b] on two Python ints with [0 <= a] and [0 < b]: the float
    nearest to the quotient (CPython rounds the quotient of the two integers
    once, whatever their size). *)
Definition true_divide (a b : Z) : Q := round64 (inject_Z a / inject_Z b).

(** [x * y] on two floats that are not negative; an int operand such as
    [100] is first made the float of the same value. *)
Definition float_mul (x y : Q) : Q := round64 (x * y).

(** [a / b * 100] on two Python ints. *)
Definition percentage (a b : Z) : Q := float_mul (true_divide a b) 100.

Lemma one_half_repr : inject_Z (2 ^ 52) * 2 ^ (-53) == 1 # 2.
Proof. by vm_compute. Qed.

Lemma one_repr : inject_Z (2 ^ 52) * 2 ^ (-52) == 1.
Proof. by vm_compute. Qed.

Lemma true_divide_le_1 a b :
  (0 <= a <= b)%Z -> (0 < b)%Z ->
  0 <= true_divide a b /\ true_divide a b <= 1.
Proof.
  intros Ha Hb. split; [apply round64_nonneg|].
  unfold true_divide. pose proof one_repr as E1.
  assert (H : round64 (inject_Z a / inject_Z b) <= inject_Z (2 ^ 52) * 2 ^ (-52)).
  { apply round64_le; [|lia|lia].
    apply Qle_trans with 1; [|lra].
    apply Qle_shift_div_r; [rewrite <- (Zlt_Qlt 0); lia|].
    rewrite Qmult_1_l, <- Zle_Qle. lia. }
  lra.
Qed.

Lemma percentage_bounds a b :
  (0 <= a <= b)%Z -> (0 < b)%Z -> 0 <= percentage a b /\ percentage a b <= 100.
Proof.
  intros Ha Hb. split; [apply round64_nonneg|].
  destruct (true_divide_le_1 a b Ha Hb) as [H0 H1].
  unfold percentage, float_mul.
  assert (E : inject_Z 100 * 2 ^ 0 == 100) by (by vm_compute).
  assert (H : round64 (true_divide a b * 100) <= inject_Z 100 * 2 ^ 0).
  { apply round64_le; [|lia|lia]. lra. }
  lra.
Qed.

Lemma percentage_none b : percentage 0 b == 0.
Proof.
  unfold percentage, float_mul, true_divide.
  rewrite (round64_nonpos (inject_Z 0 / inject_Z b)).
  - rewrite round64_nonpos; [reflexivity | lra].
  - unfold Qdiv. change (inject_Z 0) with 0. lra.
Qed.

Lemma percentage_all b : (0 < b)%Z -> percentage b b == 100.
Proof.
  intros Hb.
  assert (Hq : inject_Z b / inject_Z b == 1).
  { field. intros E. assert (0 < inject_Z b) by (rewrite <- (Zlt_Qlt 0); lia). lra. }
  assert (Hx : true_divide b b == 1).
  { apply Qle_antisym.
    - apply true_divide_le_1; lia.
    - unfold true_divide. pose proof one_repr as E1.
      assert (H : inject_Z (2 ^ 52) * 2 ^ (-52) <= round64 (inject_Z b / inject_Z b)).
      { apply round64_ge; [|lia|lia]. lra. }
      lra. }
  assert (E : inject_Z 100 * 2 ^ 0 == 100) by (by vm_compute).
  apply Qle_antisym.
  - apply percentage_bounds; lia.
  - unfold percentage, float_mul. rewrite <- E at 1.
    apply round64_ge; [|lia|lia]. rewrite E, Hx. lra.
Qed.

(** [a / b * 100 > 50] holds exactly when [a] is more than half of [b],
    for every [b] below [2 ^ 53]. *)
Lemma percentage_gt_50 a b :
  (0 <= a <= b)%Z -> (0 < b < 2 ^ 53)%Z -> (50 < percentage a b <-> (b < 2 * a)%Z).
Proof.
  intros Ha Hb.
  assert (HB : 0 < inject_Z b) by (rewrite <- (Zlt_Qlt 0); lia).
  assert (Hq : inject_Z a / inject_Z b * inject_Z b == inject_Z a).
  { field. lra. }
  destruct (Z_lt_le_dec b (2 * a)) as [Hlt|Hle].
  - split; [done|]. intros _.
    assert (H1 : inject_Z b + 1 <= 2 * inject_Z a).
    { change 1 with (inject_Z 1). change 2 with (inject_Z 2).
      rewrite <- inject_Z_plus, <- inject_Z_mult, <- Zle_Qle. lia. }
    assert (H2 : inject_Z b < inject_Z (2 ^ 53)) by (rewrite <- Zlt_Qlt; lia).
    assert (E53 : 2 ^ (-53) == 1 # 9007199254740992) by (by vm_compute).
    assert (E47 : 2 ^ (-47) == 1 # 140737488355328) by (by vm_compute).
    assert (Hx : inject_Z (2 ^ 52 + 1) * 2 ^ (-53) <= true_divide a b).
    { unfold true_divide. apply round64_succ; [|lia|lia].
      rewrite E53.
      change (inject_Z (2 ^ 52)) with (4503599627370496 # 1).
      change (inject_Z (2 ^ 53)) with (9007199254740992 # 1) in H2.
      generalize dependent (inject_Z a / inject_Z b). intros q Hq. nra. }
    assert (Hr : inject_Z (50 * 2 ^ 47 + 1) * 2 ^ (-47) <= percentage a b).
    { unfold percentage, float_mul. apply round64_succ; [|lia|lia].
      rewrite E47. rewrite E53 in Hx.
      change (inject_Z (2 ^ 52 + 1)) with (4503599627370497 # 1) in Hx.
      change (inject_Z (50 * 2 ^ 47)) with (7036874417766400 # 1).
      lra. }
    rewrite E47 in Hr.
    change (inject_Z (50 * 2 ^ 47 + 1)) with (7036874417766401 # 1) in Hr.
    lra.
  - split; [|lia]. intros H. exfalso.
    assert (H1 : 2 * inject_Z a <= inject_Z b).
    { change 2 with (inject_Z 2).
      rewrite <- inject_Z_mult, <- Zle_Qle. lia. }
    pose proof one_half_repr as Eh.
    assert (Hx : true_divide a b <= inject_Z (2 ^ 52) * 2 ^ (-53)).
    { unfold true_divide. apply round64_le; [|lia|lia].
      apply Qle_trans with (1 # 2); [|lra].
      apply Qle_shift_div_r; [done|]. lra. }
    assert (E : inject_Z 50 * 2 ^ 0 == 50) by (by vm_compute).
    assert (Hr : percentage a b <= inject_Z 50 * 2 ^ 0).
    { unfold percentage, float_mul. apply round64_le; [|lia|lia]. lra. }
    lra.
Qed.

(** The rounded value is within half a unit in the last place. *)
Lemma round64_error q k :
  0 <= q -> q < 2 ^ (k + 1) -> (-1074 <= k - 52)%Z ->
  round64 q - q <= (1 # 2) * 2 ^ (k - 52) /\
  q - round64 q <= (1 # 2) * 2 ^ (k - 52).
Proof.
  intros H0 Hk Hmin. pose proof (pow2_pos (k - 52)) as Hpk.
  destruct (Qlt_le_dec 0 q) as [Hq|Hq].
  2:{ rewrite round64_nonpos by done. split; lra. }
  rewrite round64_pos by done.
  pose proof (pow2_pos (fexp q)) as Hpe.
  assert (Hlog : (ilog2 q <= k)%Z).
  { destruct (ilog2_spec q Hq) as [H1 _].
    assert (H3 : 2 ^ ilog2 q < 2 ^ (k + 1)) by lra.
    apply Qpower_lt_compat_l_inv in H3; [lia | lra]. }
  assert (Hfe : 2 ^ fexp q <= 2 ^ (k - 52)) by (apply pow2_le; unfold fexp; lia).
  destruct (rne_error (q / 2 ^ fexp q)) as [E1 E2].
  pose proof (div_pow2 q (fexp q)) as Hd.
  generalize dependent (q / 2 ^ fexp q). intros sc E1 E2 Hd.
  generalize dependent (inject_Z (rne sc)). intros r E1 E2.
  split; nra.
Qed.

(** [a / b * 100] is the exact value up to the two roundings. *)
Lemma percentage_error a b :
  (0 <= a <= b)%Z -> (0 < b)%Z ->
  percentage a b - inject_Z a / inject_Z b * 100 <= 2 ^ (-45) /\
  inject_Z a / inject_Z b * 100 - percentage a b <= 2 ^ (-45).
Proof.
  intros Ha Hb.
  assert (HB : 0 < inject_Z b) by (rewrite <- (Zlt_Qlt 0); lia).
  assert (Hq0 : 0 <= inject_Z a / inject_Z b).
  { apply Qle_shift_div_l; [done|]. rewrite Qmult_0_l, <- (Zle_Qle 0). lia. }
  assert (Hq1 : inject_Z a / inject_Z b <= 1).
  { apply Qle_shift_div_r; [done|]. rewrite Qmult_1_l, <- Zle_Qle. lia. }
  destruct (true_divide_le_1 a b Ha Hb) as [Hx0 Hx1].
  destruct (round64_error (inject_Z a / inject_Z b) 0) as [D1 D2];
    [done | change (2 ^ (0 + 1)) with 2; lra | lia |].
  destruct (round64_error (true_divide a b * 100) 6) as [M1 M2];
    [lra | change (2 ^ (6 + 1)) with 128; lra | lia |].
  fold (true_divide a b) in D1, D2.
  fold (float_mul (true_divide a b) 100) in M1, M2. fold (percentage a b) in M1, M2.
  assert (E52 : 2 ^ (0 - 52) == 1 # 4503599627370496) by (by vm_compute).
  assert (E46 : 2 ^ (6 - 52) == 1 # 70368744177664) by (by vm_compute).
  assert (E45 : 2 ^ (-45) == 1 # 35184372088832) by (by vm_compute).
  rewrite E52 in D1, D2. rewrite E46 in M1, M2. rewrite E45.
  split; lra.
Qed.

(** The same values as the binary64 arithmetic of the kernel gives, at a
    few operands. *)
Definition SF2Q (x : spec_float) : option Q :=
  match x with
  | S754_zero _ => Some 0
  | S754_finite s m e =>
      Some ((if s then inject_Z (Z.neg m) else inject_Z (Z.pos m)) * 2 ^ e)
  | _ => None
  end.

Definition agrees_with_kernel (a b : Z) : bool :=
  match SF2Q (Prim2SF (PrimFloat.mul
                         (PrimFloat.div (PrimFloat.of_uint63 (Uint63.of_Z a))
                                        (PrimFloat.of_uint63 (Uint63.of_Z b)))
                         (PrimFloat.of_uint63 (Uint63.of_Z 100)))) with
  | Some q => Qeq_bool q (percentage a b)
  | None => false
  end.

Lemma percentage_agrees_with_kernel :
  forallb (λ p, agrees_with_kernel p.1 p.2)
    [ (0, 4); (4, 4); (1, 2); (1, 3); (2, 3); (1, 7); (5, 9); (7, 10);
      (33, 100); (123456789, 987654321) ]%Z = true.
Proof. by vm_compute. Qed.

End Binary64.
(** ** src/optimized_video_downloader.py *)

Module Optimized.

(** One entry of [supported_sites]. *)
Record SiteInfo := {
  domain : pystr;
  referer : pystr;
  formats : list pystr
}.

(** [VideoDownloaderConfig].  [supported_sites] is a dict literal: Python
    iterates it in insertion order, so it is kept as an association list. *)
Record VideoDownloaderConfig := {
  download_dir : pystr;
  max_retries : Z;
  timeout : Z;
  user_agents : list pystr;
  supported_sites : list (pystr * SiteInfo)
}.

Definition config : VideoDownloaderConfig := {|
  download_dir := lit "downloads";
  max_retries := 3;
  timeout := 180;
  user_agents := [
    lit "Mozilla/5.0 (Windows NT 10.0; Win64; x64) AppleWebKit/537.36 (KHTML, like Gecko) Chrome/91.0.4472.124 Safari/537.36";
    lit "Mozilla/5.0 (Windows NT 10.0; Win64; x64; rv:89.0) Gecko/20100101 Firefox/89.0";
    lit "Mozilla/5.0 (Macintosh; Intel Mac OS X 10_15_7) AppleWebKit/537.36 (KHTML, like Gecko) Chrome/91.0.4472.124 Safari/537.36" ];
  supported_sites := [
    (lit "bilibili",
     {| domain := lit "bilibili.com";
        referer := lit "https://www.bilibili.com/";
        formats := [lit "100024+30280"; lit "100023+30232"; lit "100022+30216"] |});
    (lit "sohu",
     {| domain := lit "sohu.com";
        referer := lit "https://tv.sohu.com/";
        formats := [lit "best"; lit "worst"] |});
    (lit "360kan",
     {| domain := lit "360kan.com";
        referer := lit "https://tv.360kan.com/";
        formats := [lit "best"; lit "worst"] |}) ]
|}.

(** The values [status] takes ("pending, success, failed, error"). *)
Inductive Status := pending | success | failed | error.


(** [DownloadResult].  Times are seconds, kept as rationals. *)
Record DownloadResult := {
  url : pystr;
  site : pystr;
  status : Status;
  files : list pystr;
  error_message : pystr;
  download_time : Q;
  file_size : Z
}.

(** [DownloadResult.__init__] *)
Definition DownloadResult_init (u s : pystr) : DownloadResult := {|
  url := u; site := s; status := pending; files := [];
  error_message := []; download_time := 0%Q; file_size := 0
|}.

Definition set_status (s : Status) (r : DownloadResult) : DownloadResult :=
  {| url := url r; site := site r; status := s; files := files r;
     error_message := error_message r; download_time := download_time r;
     file_size := file_size r |}.

Definition set_error_message (m : pystr) (r : DownloadResult) : DownloadResult :=
  {| url := url r; site := site r; status := status r; files := files r;
     error_message := m; download_time := download_time r;
     file_size := file_size r |}.

Definition set_download_time (t : Q) (r : DownloadResult) : DownloadResult :=
  {| url := url r; site := site r; status := status r; files := files r;
     error_message := error_message r; download_time := t;
     file_size := file_size r |}.

(** What [subprocess.run(cmd, capture_output=True, text=True, timeout=t)]
    can do: return a completed process (exit code, captured stderr, and the
    wall-clock time the call took), raise [subprocess.TimeoutExpired], or
    raise another exception whose [str(e)] is [msg]. *)
Inductive run_outcome :=
  | Completed (returncode : Z) (stderr : pystr) (elapsed : Q)
  | TimeoutExpired
  | Raised (msg : pystr).

(** [for site, info in supported_sites.items(): if info['domain'] in url:
    return site] and finally ['unknown'].  The same body serves
    [SiteHandler.detect_site] and [OptimizedVideoDownloader.detect_site]. *)
Fixpoint detect_in (sites : list (pystr * SiteInfo)) (u : pystr) : pystr :=
  match sites with
  | [] => lit "unknown"
  | (name, info) :: rest =>
      if contains (domain info) u then name else detect_in rest u
  end.

Definition detect_site (cfg : VideoDownloaderConfig) (u : pystr) : pystr :=
  detect_in (supported_sites cfg) u.

(** [d[key]] on an insertion-ordered dict; [None] stands for [KeyError]. *)
Fixpoint dict_get {A} (key : pystr) (d : list (pystr * A)) : option A :=
  match d with
  | [] => None
  | (k, v) :: rest => if PyStr.eqb k key then Some v else dict_get key rest
  end.

(** [f"下载超时 (>{self.config.timeout}s)"] *)
Definition timeout_message (cfg : VideoDownloaderConfig) : pystr :=
  [19979; 36733; 36229; 26102; 32; 40; 62]%N ++ str_of_Z (timeout cfg) ++ lit "s)".

(** ['不支持的网站类型'] *)
Definition unsupported_message : pystr :=
  [19981; 25903; 25345; 30340; 32593; 31449; 31867; 22411]%N.

(** [f'没有找到 {site} 的处理器'] *)
Definition no_handler_message (s : pystr) : pystr :=
  [27809; 26377; 25214; 21040; 32]%N ++ s ++ [32; 30340; 22788; 29702; 22120]%N.

(** [str(e)] of the [IndexError] that [user_agents[0]] raises on an empty list. *)
Definition index_error_message : pystr := lit "list index out of range".

(** The three handlers differ in the key of their site, in the prefix of
    the output template and in their log texts only. *)
Inductive HandlerKind := BilibiliHandler | SohuHandler | Kan360Handler.

Definition handler_key (h : HandlerKind) : pystr :=
  match h with
  | BilibiliHandler => lit "bilibili"
  | SohuHandler => lit "sohu"
  | Kan360Handler => lit "360kan"
  end.

(** [f'{download_dir}/<site>_opt_%(title)s.%(ext)s'] *)
Definition output_template (cfg : VideoDownloaderConfig) (h : HandlerKind) : pystr :=
  download_dir cfg ++ lit "/" ++ handler_key h ++ lit "_opt_%(title)s.%(ext)s".

(** The [cmd] list of one attempt. *)
Definition command (cfg : VideoDownloaderConfig) (h : HandlerKind)
    (sc : SiteInfo) (ua u format_str : pystr) : list pystr :=
  [ lit "yt-dlp";
    lit "--format"; format_str;
    lit "--output"; output_template cfg h;
    lit "--user-agent"; ua;
    lit "--referer"; referer sc;
    u ].

(** [setup_handlers]: the dict of handlers, in insertion order. *)
Definition handlers : list (pystr * HandlerKind) :=
  [ (lit "bilibili", BilibiliHandler);
    (lit "sohu", SohuHandler);
    (lit "360kan", Kan360Handler) ].

Section Pipeline.

(** The world outside the process, and what running a command in it does. *)
Variable World : Type.
Variable subprocess_run : list pystr → Z → World → run_outcome * World.

(** The state threaded through a task: the outside world and the record of
    every process started, with what came of it. *)
Record Env := {
  world : World;
  started : list (list pystr * run_outcome)
}.

Definition run (cmd : list pystr) (tmo : Z) (e : Env) : run_outcome * Env :=
  let '(o, w) := subprocess_run cmd tmo (world e) in
  (o, {| world := w; started := started e ++ [(cmd, o)] |}).

(** The [for format_str in site_config['formats']] loop of a handler's
    [download], with the two statements that follow it. *)
Fixpoint try_formats (cfg : VideoDownloaderConfig) (h : HandlerKind)
    (sc : SiteInfo) (u : pystr) (fmts : list pystr)
    (result : DownloadResult) (e : Env) : bool * DownloadResult * Env :=
  match fmts with
  | [] => (false, set_status failed result, e)
  | format_str :: rest =>
      match user_agents cfg !! 0%nat with
      | None =>
          try_formats cfg h sc u rest
            (set_error_message index_error_message result) e
      | Some ua =>
          let '(o, e') := run (command cfg h sc ua u format_str) (timeout cfg) e in
          match o with
          | Completed rc _ dt =>
              let result := set_download_time dt result in
              if rc =? 0 then (true, set_status success result, e')
              else try_formats cfg h sc u rest result e'
          | TimeoutExpired =>
              try_formats cfg h sc u rest
                (set_error_message (timeout_message cfg) result) e'
          | Raised msg =>
              try_formats cfg h sc u rest (set_error_message msg result) e'
          end
      end
  end.

(** [<Handler>.download(url, result)].  [None] is the [KeyError] of
    [supported_sites[key]].  ([SohuHandler.download] first calls
    [decode_url], whose value it does not use.) *)
Definition download (cfg : VideoDownloaderConfig) (h : HandlerKind)
    (u : pystr) (result : DownloadResult) (e : Env)
    : option (bool * DownloadResult * Env) :=
  match dict_get (handler_key h) (supported_sites cfg) with
  | None => None
  | Some sc => Some (try_formats cfg h sc u (formats sc) result e)
  end.

(** [download_single_video(url)] *)
Definition download_single_video (cfg : VideoDownloaderConfig)
    (u : pystr) (e : Env) : option (DownloadResult * Env) :=
  let s := detect_site cfg u in
  let result := DownloadResult_init u s in
  if PyStr.eqb s (lit "unknown") then
    Some (set_error_message unsupported_message (set_status failed result), e)
  else
    match dict_get s handlers with
    | Some h =>
        match download cfg h u result e with
        | Some (_, result, e') => Some (result, e')
        | None => None
        end
    | None =>
        Some (set_error_message (no_handler_message s)
                (set_status failed result), e)
    end.

End Pipeline.

Arguments world {World}.
Arguments started {World}.





(** *** What the statements below speak of *)

(** Whether an attempt ended the chain: the process completed with exit
    code 0. *)
Definition succeeded (o : run_outcome) : bool :=
  match o with
  | Completed rc _ _ => rc =? 0
  | _ => false
  end.

(** The error message a result carries after one more attempt. *)
Definition message_after (cfg : VideoDownloaderConfig) (prev : pystr)
    (o : run_outcome) : pystr :=
  match o with
  | Completed _ _ _ => prev
  | TimeoutExpired => timeout_message cfg
  | Raised msg => msg
  end.

(** The reason an attempt failed for, as the handler logs it: the captured
    stderr, the timeout text, or the text of the exception. *)
Definition failure_reason (cfg : VideoDownloaderConfig) (o : run_outcome) : pystr :=
  match o with
  | Completed _ err _ => err
  | TimeoutExpired => timeout_message cfg
  | Raised msg => msg
  end.


(** The outcomes a scripted world hands out when its list is used up. *)
Definition script_end : run_outcome := Raised (lit "no process available").

Definition scripted_run : list pystr → Z → list run_outcome → run_outcome * list run_outcome :=
  λ cmd _, scripted script_end cmd.

Definition fresh (w : list run_outcome) : Env (list run_outcome) :=
  {| world := w; started := [] |}.

(** *** Site detection *)

(** Detection answers ["unknown"] when no domain occurs in the URL. *)
Lemma detect_in_unknown sites u :
  forallb (λ p, negb (contains (domain p.2) u)) sites = true →
  detect_in sites u = lit "unknown".
Proof.
  induction sites as [|[name info] sites IH]; simpl; [done|].
  rewrite andb_true_iff, negb_true_iff. intros [-> H]. auto.
Qed.

(** Detection answers the first entry, in the order of the table, whose
    domain occurs in the URL. *)
Lemma detect_in_first sites u before name info after :
  sites = before ++ (name, info) :: after →
  forallb (λ p, negb (contains (domain p.2) u)) before = true →
  contains (domain info) u = true →
  detect_in sites u = name.
Proof.
  intros -> Hb Hm. induction before as [|[n i] before IH]; simpl in *.
  - by rewrite Hm.
  - apply andb_true_iff in Hb as [Hn Hb]. apply negb_true_iff in Hn.
    rewrite Hn. auto.
Qed.

(** *** The format chain *)

Section Chain.

Context {World : Type}.
Variable subprocess_run : list pystr → Z → World → run_outcome * World.

Local Abbreviation try_formats := (try_formats World subprocess_run).
Local Abbreviation download := (download World subprocess_run).
Local Abbreviation download_single_video := (download_single_video World subprocess_run).
Local Abbreviation run := (run World subprocess_run).

Lemma run_started cmd tmo e o e' :
  run cmd tmo e = (o, e') → started e' = started e ++ [(cmd, o)].
Proof.
  unfold Optimized.run. destruct (subprocess_run _ _ _) as [o1 w].
  by intros [= <- <-].
Qed.

(** What one pass over the formats does: the attempts made are the leading
    formats in order, each but the last one failed, the pass reports success
    exactly when the last attempt succeeded, and on failure every format
    was attempted. *)
Lemma try_formats_chain cfg h sc u ua fmts result e ok result' e' :
  user_agents cfg !! 0%nat = Some ua →
  try_formats cfg h sc u fmts result e = (ok, result', e') →
  ∃ outs : list run_outcome,
    (length outs ≤ length fmts)%nat ∧
    started e' =
      started e ++ zip (command cfg h sc ua u <$> take (length outs) fmts) outs ∧
    forallb (λ o, negb (succeeded o)) (take (length outs - 1) outs) = true ∧
    ok = from_option succeeded false (last outs) ∧
    (ok = false → length outs = length fmts) ∧
    status result' = (if ok then success else failed) ∧
    error_message result' = foldl (message_after cfg) (error_message result) outs.
Proof.
  intros Hua. revert result e.
  induction fmts as [|f fmts IH]; intros result e; simpl.
  - intros [= <- <- <-]. exists []. simpl. rewrite app_nil_r. done.
  - rewrite Hua.
    destruct (run _ _ e) as [o e1] eqn:Hrun.
    apply run_started in Hrun.
    assert (Hfail : ∀ r1,
      succeeded o = false →
      error_message r1 = message_after cfg (error_message result) o →
      try_formats cfg h sc u fmts r1 e1 = (ok, result', e') →
      ∃ outs : list run_outcome,
        (length outs ≤ S (length fmts))%nat ∧
        started e' =
          started e ++
          zip (command cfg h sc ua u <$> take (length outs) (f :: fmts)) outs ∧
        forallb (λ o, negb (succeeded o)) (take (length outs - 1) outs) = true ∧
        ok = from_option succeeded false (last outs) ∧
        (ok = false → length outs = S (length fmts)) ∧
        status result' = (if ok then success else failed) ∧
        error_message result' =
          foldl (message_after cfg) (error_message result) outs).
    { intros r1 Ho Hm Hrest.
      destruct (IH _ _ Hrest) as (outs & Hlen & Hst & Hall & Hok & Hex & Hs & Hmsg).
      exists (o :: outs). simpl. repeat split.
      - lia.
      - rewrite Hst, Hrun, <- app_assoc. done.
      - rewrite Nat.sub_0_r. destruct outs as [|o1 outs]; [done|].
        simpl in *. rewrite Nat.sub_0_r in Hall. by rewrite Ho, Hall.
      - rewrite Hok. destruct outs as [|o1 outs]; simpl; [by rewrite Ho | done].
      - intros Hf. by rewrite (Hex Hf).
      - done.
      - by rewrite Hmsg, Hm. }
    destruct o as [rc err dt | | msg].
    + destruct (rc =? 0) eqn:Hrc.
      * intros [= <- <- <-]. exists [Completed rc err dt]. simpl.
        rewrite Hrc. repeat split; try done; try lia.
      * apply Hfail; simpl; [done | done].
    + apply Hfail; done.
    + apply Hfail; done.
Qed.

(** The pass never records a file, and reports success only after a
    process that exited with code 0. *)
Lemma try_formats_success cfg h sc u fmts result e ok result' e' :
  try_formats cfg h sc u fmts result e = (ok, result', e') →
  site result' = site result ∧
  files result' = files result ∧
  file_size result' = file_size result ∧
  status result' = (if ok then success else failed) ∧
  (ok = true →
   ∃ before cmd err dt, started e' = before ++ [(cmd, Completed 0 err dt)]).
Proof.
  revert result e.
  induction fmts as [|f fmts IH]; intros result e; simpl.
  - intros [= <- <- <-]. done.
  - destruct (user_agents cfg !! 0%nat) as [ua|].
    2:{ intros H. apply IH in H. exact H. }
    destruct (run _ _ e) as [o e1] eqn:Hrun.
    apply run_started in Hrun.
    destruct o as [rc err dt | | msg].
    + destruct (rc =? 0) eqn:Hrc.
      * intros [= <- <- <-]. simpl. repeat split.
        intros _. apply Z.eqb_eq in Hrc. subst rc. eauto.
      * intros H. apply IH in H. exact H.
    + intros H. apply IH in H. exact H.
    + intros H. apply IH in H. exact H.
Qed.

(** ** C2, as the code has it.  A handler attempts the formats of its site
    in the declared order; the first attempt whose process exits with code 0
    ends the chain with status [success]; only when every format has been
    attempted without one does the result become [failed].  The error
    message of the result is NOT a concatenation: each timeout or exception
    overwrites it, and an attempt that merely exits with a non-zero code
    leaves it as it was. *)
Theorem download_chain cfg h sc u ua result e :
  user_agents cfg !! 0%nat = Some ua →
  dict_get (handler_key h) (supported_sites cfg) = Some sc →
  ∃ ok result' e' (outs : list run_outcome),
    download cfg h u result e = Some (ok, result', e') ∧
    (length outs ≤ length (formats sc))%nat ∧
    started e' =
      started e ++
      zip (command cfg h sc ua u <$> take (length outs) (formats sc)) outs ∧
    forallb (λ o, negb (succeeded o)) (take (length outs - 1) outs) = true ∧
    ok = from_option succeeded false (last outs) ∧
    (ok = false → length outs = length (formats sc)) ∧
    status result' = (if ok then success else failed) ∧
    error_message result' = foldl (message_after cfg) (error_message result) outs.
Proof.
  intros Hua Hsc. unfold Optimized.download. rewrite Hsc.
  destruct (try_formats cfg h sc u (formats sc) result e) as [[ok r'] e'] eqn:H.
  exists ok, r', e'.
  destruct (try_formats_chain _ _ _ _ _ _ _ _ _ _ _ Hua H) as [outs Houts].
  exists outs. split; [done | exact Houts].
Qed.

(** ** C1, as the code has it.  A result with status [success] comes from a
    process that exited with code 0; no output file is looked for, and the
    file list and the file size of every result stay as they were created:
    empty and 0. *)
Theorem success_records_no_file cfg u e result e' :
  download_single_video cfg u e = Some (result, e') →
  files result = [] ∧
  file_size result = 0 ∧
  (status result = success →
   ∃ before cmd err dt, started e' = before ++ [(cmd, Completed 0 err dt)]).
Proof.
  unfold Optimized.download_single_video.
  destruct (PyStr.eqb _ _).
  { intros [= <- <-]. simpl. repeat split. discriminate. }
  destruct (dict_get _ handlers) as [h|].
  2:{ intros [= <- <-]. simpl. repeat split. discriminate. }
  unfold Optimized.download.
  destruct (dict_get _ (supported_sites cfg)) as [sc|]; [|discriminate].
  destruct (try_formats _ _ _ _ _ _ _) as [[ok r'] e1] eqn:H.
  intros [= <- <-].
  apply try_formats_success in H as (_ & Hf & Hz & Hs & Hok).
  repeat split; [done | done |].
  rewrite Hs. destruct ok; [auto | discriminate].
Qed.

(** A URL in which no domain of the table occurs is failed at once: the
    result is [failed] with the fixed message, and no process is started. *)
Lemma unknown_site_fails cfg u e :
  detect_site cfg u = lit "unknown" →
  download_single_video cfg u e =
    Some (set_error_message unsupported_message
            (set_status failed (DownloadResult_init u (lit "unknown"))), e).
Proof.
  unfold Optimized.download_single_video. intros ->.
  by rewrite eqb_refl.
Qed.

(** ** C4, at a URL whose host matches no domain of the table while its
    query does: the site detected is [bilibili], not [unknown], and the
    handler starts a process for it. *)
Theorem unmatched_host_reaches_handler (e : Env World) :
  let u := lit "https://example.org/watch?from=bilibili.com" in
  forallb (λ p, negb (contains (domain p.2) (Url.netloc u)))
    (supported_sites config) = true ∧
  ∃ result e',
    download_single_video config u e = Some (result, e') ∧
    site result = lit "bilibili" ∧
    (length (started e) < length (started e'))%nat.
Proof.
  intros u. split; [by vm_compute|].
  assert (Hd : detect_site config u = lit "bilibili") by (by vm_compute).
  unfold Optimized.download_single_video. rewrite Hd.
  change (PyStr.eqb (lit "bilibili") (lit "unknown")) with false.
  change (dict_get (lit "bilibili") handlers) with (Some BilibiliHandler).
  cbv iota beta.
  unfold Optimized.download.
  change (dict_get (handler_key BilibiliHandler) (supported_sites config))
    with (Some {| domain := lit "bilibili.com";
                  referer := lit "https://www.bilibili.com/";
                  formats := [lit "100024+30280"; lit "100023+30232";
                              lit "100022+30216"] |}).
  cbv iota beta.
  match goal with |- context [try_formats ?c ?h ?sc ?uu ?fm ?r ?ee] =>
    destruct (try_formats c h sc uu fm r ee) as [[ok r'] e1] eqn:H end.
  exists r', e1. split; [done|].
  destruct (try_formats_success _ _ _ _ _ _ _ _ _ _ H) as (Hsite & _).
  eapply (try_formats_chain config _ _ _ _ _ _ _ _ _ _ eq_refl) in H
    as (outs & Hlen & Hst & Hall & Hok & Hex & Hs & Hmsg).
  split.
  - exact Hsite.
  - rewrite Hst, length_app.
    destruct outs as [|o outs]; simpl in *; [|lia].
    destruct ok; [discriminate|]. specialize (Hex eq_refl). discriminate.
Qed.

End Chain.

(** *** Closed instances *)

Definition bilibili_page : pystr :=
  lit "https://www.bilibili.com/video/BV1fp4y1m7Fz?t=113.5".

Definition bilibili_site : SiteInfo :=
  {| domain := lit "bilibili.com";
     referer := lit "https://www.bilibili.com/";
     formats := [lit "100024+30280"; lit "100023+30232"; lit "100022+30216"] |}.

Definition first_agent : pystr :=
  lit "Mozilla/5.0 (Windows NT 10.0; Win64; x64) AppleWebKit/537.36 (KHTML, like Gecko) Chrome/91.0.4472.124 Safari/537.36".

(** Three failed attempts: a non-zero exit, an exception, a timeout. *)
Definition three_failures : list run_outcome :=
  [ Completed 1 (lit "ERROR: Requested format is not available") 2%Q;
    Raised (lit "connection reset");
    TimeoutExpired ].

(** The chain theorem at the Bilibili handler, in a world where the first
    format fails and the second succeeds. *)
Lemma download_chain_witness :
  ∃ ok result' e' (outs : list run_outcome),
    download _ scripted_run config BilibiliHandler bilibili_page
      (DownloadResult_init bilibili_page (lit "bilibili"))
      (fresh [Completed 1 (lit "ERROR") 2%Q; Completed 0 [] 5%Q])
      = Some (ok, result', e') ∧
    (length outs ≤ length (formats bilibili_site))%nat ∧
    started e' =
      started (fresh [Completed 1 (lit "ERROR") 2%Q; Completed 0 [] 5%Q]) ++
      zip (command config BilibiliHandler bilibili_site first_agent bilibili_page
             <$> take (length outs) (formats bilibili_site)) outs ∧
    forallb (λ o, negb (succeeded o)) (take (length outs - 1) outs) = true ∧
    ok = from_option succeeded false (last outs) ∧
    (ok = false → length outs = length (formats bilibili_site)) ∧
    status result' = (if ok then success else failed) ∧
    error_message result' =
      foldl (message_after config)
        (error_message (DownloadResult_init bilibili_page (lit "bilibili"))) outs.
Proof.
  apply (download_chain scripted_run config BilibiliHandler bilibili_site
           bilibili_page first_agent); reflexivity.
Defined.

(** C2 as the specification words it fails: after three failed attempts the
    message is the text of the last exception alone; neither the captured
    stderr of the first attempt nor the text of the second is part of it. *)
Lemma chain_message_is_overwritten :
  ∃ result e',
    download_single_video _ scripted_run config bilibili_page
      (fresh three_failures) = Some (result, e') ∧
    status result = failed ∧
    (started e').*2 = three_failures ∧
    error_message result = timeout_message config ∧
    error_message result ≠ mjoin (failure_reason config <$> three_failures) ∧
    contains (lit "connection reset") (error_message result) = false ∧
    contains (lit "ERROR: Requested format is not available")
      (error_message result) = false.
Proof.
  eexists _, _. split; [by vm_compute|].
  repeat split; try by vm_compute.
Qed.

(** The theorem on success at a run whose first attempt exits with code 0. *)
Lemma success_records_no_file_witness :
  ∃ result e',
    download_single_video _ scripted_run config bilibili_page
      (fresh [Completed 0 [] 3%Q]) = Some (result, e') ∧
    files result = [] ∧
    file_size result = 0 ∧
    (status result = success →
     ∃ before cmd err dt, started e' = before ++ [(cmd, Completed 0 err dt)]).
Proof.
  eexists _, _. split; [reflexivity|].
  apply (success_records_no_file scripted_run config bilibili_page
           (fresh [Completed 0 [] 3%Q])).
  reflexivity.
Defined.

(** C1 as the specification words it fails: a result with status [success]
    whose list of files is empty. *)
Lemma success_with_no_file_recorded :
  ∃ result e',
    download_single_video _ scripted_run config bilibili_page
      (fresh [Completed 0 [] 3%Q]) = Some (result, e') ∧
    status result = success ∧
    files result = [].
Proof. eexists _, _. by vm_compute. Qed.

(** *** The report *)




(** *** Single tasks, whatever the table and the world *)

(** ** X1.  [detect_site] answers the name of the first entry of the table,
    in insertion order, whose domain occurs somewhere in the URL; when no
    domain of the table occurs in the URL it answers [unknown]. *)
Theorem detect_site_first_match cfg u :
  (forallb (λ p, negb (contains (domain p.2) u)) (supported_sites cfg) = true ∧
   detect_site cfg u = lit "unknown") ∨
  (∃ before name info after,
     supported_sites cfg = before ++ (name, info) :: after ∧
     forallb (λ p, negb (contains (domain p.2) u)) before = true ∧
     contains (domain info) u = true ∧
     detect_site cfg u = name).
Proof.
  unfold detect_site. induction (supported_sites cfg) as [|[name info] sites IH].
  - left. done.
  - cbn [detect_in forallb snd]. destruct (contains (domain info) u) eqn:Hc.
    + right. exists [], name, info, sites. done.
    + destruct IH as [[Hall Hd] | (before & n & i & after & -> & Hb & Hm & Hd)].
      * left. done.
      * right. exists ((name, info) :: before), n, i, after.
        cbn [forallb snd]. rewrite Hc. done.
Qed.

Section Tasks.

Context {World : Type}.
Variable subprocess_run : list pystr → Z → World → run_outcome * World.

Local Abbreviation try_formats := (try_formats World subprocess_run).
Local Abbreviation download := (download World subprocess_run).
Local Abbreviation download_single_video := (download_single_video World subprocess_run).

(** ** X2.  A URL in which no domain of the table occurs is failed at once,
    for every table: the result carries the URL, the site [unknown], the
    status [failed] and the fixed message, and the task starts no process
    and leaves the world as it was. *)
Theorem no_domain_no_process cfg u (e : Env World) :
  forallb (λ p, negb (contains (domain p.2) u)) (supported_sites cfg) = true →
  ∃ result,
    download_single_video cfg u e = Some (result, e) ∧
    url result = u ∧
    site result = lit "unknown" ∧
    status result = failed ∧
    error_message result = unsupported_message ∧
    files result = [].
Proof.
  intros Hno. rewrite (unknown_site_fails subprocess_run cfg u e).
  - eexists. split; [reflexivity|]. done.
  - by apply detect_in_unknown.
Qed.

Lemma try_formats_url cfg h sc u fmts result (e : Env World) ok result' e' :
  try_formats cfg h sc u fmts result e = (ok, result', e') →
  url result' = url result.
Proof.
  revert result e.
  induction fmts as [|f fmts IH]; intros result e; simpl.
  - by intros [= <- <- <-].
  - destruct (user_agents cfg !! 0%nat) as [ua|].
    2:{ intros H. by apply IH in H. }
    destruct (Optimized.run _ _ _ _ e) as [o e1].
    destruct o as [rc err dt | | msg].
    + destruct (rc =? 0).
      * by intros [= <- <- <-].
      * intros H. by apply IH in H.
    + intros H. by apply IH in H.
    + intros H. by apply IH in H.
Qed.

(** What a task that returns has in its result. *)
Lemma single_video_result cfg u (e : Env World) result e' :
  download_single_video cfg u e = Some (result, e') →
  url result = u ∧
  site result = detect_site cfg u ∧
  (status result = success ∨ status result = failed).
Proof.
  unfold Optimized.download_single_video.
  destruct (PyStr.eqb _ _).
  { intros [= <- <-]. simpl. auto. }
  destruct (dict_get _ handlers) as [h|].
  2:{ intros [= <- <-]. simpl. auto. }
  unfold Optimized.download.
  destruct (dict_get _ (supported_sites cfg)) as [sc|]; [|discriminate].
  destruct (Optimized.try_formats _ _ _ _ _ _ _ _ _) as [[ok r'] e1] eqn:H.
  intros [= <- <-].
  pose proof (try_formats_url _ _ _ _ _ _ _ _ _ _ H) as Hu.
  apply try_formats_success in H as (Hsite & _ & _ & Hs & _).
  repeat split; [done | done |].
  rewrite Hs. destruct ok; auto.
Qed.

(** The four answers of detection under the shipped table. *)
Lemma detect_site_config u :
  detect_site config u = lit "bilibili" ∨
  detect_site config u = lit "sohu" ∨
  detect_site config u = lit "360kan" ∨
  detect_site config u = lit "unknown".
Proof.
  unfold detect_site, config. cbn [supported_sites detect_in domain].
  destruct (contains (lit "bilibili.com") u); [tauto|].
  destruct (contains (lit "sohu.com") u); [tauto|].
  destruct (contains (lit "360kan.com") u); tauto.
Qed.

(** ** X3.  Under the shipped configuration a task returns a result for
    every URL and in every world: each site the table can answer has a
    handler, each handler finds its entry in the table, and the list of user
    agents is not empty, so no lookup fails.  The result carries the URL and
    the detected site, and its status is [success] or [failed], never
    [pending] or [error]. *)
Theorem single_video_always_answers u (e : Env World) :
  ∃ result e',
    download_single_video config u e = Some (result, e') ∧
    url result = u ∧
    site result = detect_site config u ∧
    (status result = success ∨ status result = failed).
Proof.
  assert (Hsome : ∃ r, download_single_video config u e = Some r).
  { unfold Optimized.download_single_video.
    destruct (detect_site_config u) as [-> | [-> | [-> | ->]]].
    - change (PyStr.eqb (lit "bilibili") (lit "unknown")) with false.
      change (dict_get (lit "bilibili") handlers) with (Some BilibiliHandler).
      cbv iota beta. unfold Optimized.download.
      destruct (dict_get (handler_key BilibiliHandler) (supported_sites config))
        as [sc|] eqn:Hsc; [|by vm_compute in Hsc].
      destruct (Optimized.try_formats _ _ _ _ _ _ _ _ _) as [[ok r'] e1].
      by eexists.
    - change (PyStr.eqb (lit "sohu") (lit "unknown")) with false.
      change (dict_get (lit "sohu") handlers) with (Some SohuHandler).
      cbv iota beta. unfold Optimized.download.
      destruct (dict_get (handler_key SohuHandler) (supported_sites config))
        as [sc|] eqn:Hsc; [|by vm_compute in Hsc].
      destruct (Optimized.try_formats _ _ _ _ _ _ _ _ _) as [[ok r'] e1].
      by eexists.
    - change (PyStr.eqb (lit "360kan") (lit "unknown")) with false.
      change (dict_get (lit "360kan") handlers) with (Some Kan360Handler).
      cbv iota beta. unfold Optimized.download.
      destruct (dict_get (handler_key Kan360Handler) (supported_sites config))
        as [sc|] eqn:Hsc; [|by vm_compute in Hsc].
      destruct (Optimized.try_formats _ _ _ _ _ _ _ _ _) as [[ok r'] e1].
      by eexists.
    - rewrite eqb_refl. by eexists. }
  destruct Hsome as [[result e'] H].
  exists result, e'. split; [done|].
  by apply single_video_result in H.
Qed.

(** The processes one pass over the formats starts. *)
Lemma try_formats_commands cfg h sc u fmts result (e : Env World) ok result' e' :
  try_formats cfg h sc u fmts result e = (ok, result', e') →
  ∃ new,
    started e' = started e ++ new ∧
    (length new ≤ length fmts)%nat ∧
    Forall (λ x, ∃ ua format_str,
              user_agents cfg !! 0%nat = Some ua ∧
              format_str ∈ fmts ∧
              x.1 = command cfg h sc ua u format_str) new.
Proof.
  revert result e.
  induction fmts as [|f fmts IH]; intros result e; simpl.
  - intros [= <- <- <-]. exists []. rewrite app_nil_r. done.
  - assert (Hrest : ∀ r1 e1 pre,
      started e1 = started e ++ pre →
      (length pre ≤ 1)%nat →
      Forall (λ x, ∃ ua format_str,
                user_agents cfg !! 0%nat = Some ua ∧
                format_str ∈ f :: fmts ∧
                x.1 = command cfg h sc ua u format_str) pre →
      try_formats cfg h sc u fmts r1 e1 = (ok, result', e') →
      ∃ new,
        started e' = started e ++ new ∧
        (length new ≤ S (length fmts))%nat ∧
        Forall (λ x, ∃ ua format_str,
                  user_agents cfg !! 0%nat = Some ua ∧
                  format_str ∈ f :: fmts ∧
                  x.1 = command cfg h sc ua u format_str) new).
    { intros r1 e1 pre Hpre Hlen Hall H.
      destruct (IH _ _ H) as (new & Hst & Hl & Hf).
      exists (pre ++ new). split; [by rewrite Hst, Hpre, app_assoc|].
      split; [rewrite length_app; lia|].
      apply Forall_app. split; [done|].
      eapply Forall_impl; [exact Hf|].
      intros x (ua & g & Hua & Hg & Hx). exists ua, g.
      split; [done|]. split; [by right | done]. }
    destruct (user_agents cfg !! 0%nat) as [ua|] eqn:Hua.
    2:{ apply (Hrest _ _ []); [by rewrite app_nil_r | simpl; lia | constructor]. }
    destruct (Optimized.run _ _ _ _ e) as [o e1] eqn:Hrun.
    apply run_started in Hrun.
    assert (Hone : Forall (λ x, ∃ ua0 format_str,
                Some ua = Some ua0 ∧
                format_str ∈ f :: fmts ∧
                x.1 = command cfg h sc ua0 u format_str)
              [(command cfg h sc ua u f, o)]).
    { constructor; [|constructor]. exists ua, f. split; [done|].
      split; [left | done]. }
    destruct o as [rc err dt | | msg].
    + destruct (rc =? 0).
      * intros [= <- <- <-]. eexists. split; [exact Hrun|].
        split; [simpl; lia | exact Hone].
      * eapply Hrest; [exact Hrun | simpl; lia | exact Hone].
    + eapply Hrest; [exact Hrun | simpl; lia | exact Hone].
    + eapply Hrest; [exact Hrun | simpl; lia | exact Hone].
Qed.

(** ** X4.  The only program a task runs is yt-dlp, on the URL of the task:
    every process it starts has the command line [yt-dlp --format F
    --output DIR/SITE_opt_%(title)s.%(ext)s --user-agent UA --referer R
    URL], where [F] is one of the formats of the detected site, [UA] is the
    first user agent and [R] the referer of the site; and it starts at most
    as many processes as the site has formats. *)
Theorem only_ytdlp_is_run cfg u (e : Env World) result e' :
  download_single_video cfg u e = Some (result, e') →
  ∃ new,
    started e' = started e ++ new ∧
    (new = [] ∨
     ∃ h sc ua,
       dict_get (site result) handlers = Some h ∧
       dict_get (handler_key h) (supported_sites cfg) = Some sc ∧
       user_agents cfg !! 0%nat = Some ua ∧
       (length new ≤ length (formats sc))%nat ∧
       Forall (λ x, ∃ format_str,
                 format_str ∈ formats sc ∧
                 x.1 = [ lit "yt-dlp";
                         lit "--format"; format_str;
                         lit "--output";
                         download_dir cfg ++ lit "/" ++ handler_key h ++
                           lit "_opt_%(title)s.%(ext)s";
                         lit "--user-agent"; ua;
                         lit "--referer"; referer sc;
                         u ]) new).
Proof.
  intros H. pose proof (single_video_result _ _ _ _ _ H) as (_ & Hsite & _).
  revert H. unfold Optimized.download_single_video.
  destruct (PyStr.eqb _ _).
  { intros [= <- <-]. exists []. rewrite app_nil_r. auto. }
  destruct (dict_get _ handlers) as [h|] eqn:Hh.
  2:{ intros [= <- <-]. exists []. rewrite app_nil_r. auto. }
  unfold Optimized.download.
  destruct (dict_get _ (supported_sites cfg)) as [sc|] eqn:Hsc; [|discriminate].
  destruct (Optimized.try_formats _ _ _ _ _ _ _ _ _) as [[ok r'] e1] eqn:Ht.
  intros [= <- <-].
  apply try_formats_commands in Ht as (new & Hst & Hlen & Hall).
  exists new. split; [done|].
  destruct new as [|x new]; [by left|]. right.
  pose proof (Forall_inv Hall) as (ua & _ & Hua & _).
  exists h, sc, ua. rewrite Hsite. split; [done|]. split; [done|].
  split; [done|]. split; [done|].
  eapply Forall_impl; [exact Hall|].
  intros y (ua' & g & Hua' & Hg & Hy). exists g. split; [done|].
  rewrite Hua in Hua'. injection Hua' as <-. exact Hy.
Qed.

End Tasks.

(** *** The report of a batch *)




(** *** The listing of the downloaded files *)

Definition listing_keywords : list pystr :=
  [lit "opt_"; lit "bilibili"; lit "sohu"; lit "360kan"].

(** [any(keyword in f.lower() for keyword in ['opt_', 'bilibili', 'sohu',
    '360kan'])] *)
Definition is_listed (f : pystr) : bool :=
  existsb (λ keyword, contains keyword (lower f)) listing_keywords.

(** The list comprehension of [list_downloaded_files]. *)
Definition listed_files (names : list pystr) : list pystr :=
  List.filter is_listed names.

Lemma lower_app s t : lower (s ++ t) = lower s ++ lower t.
Proof. unfold lower. apply bind_app. Qed.

(** ** X6.  The listing keeps every file a handler can have written: the
    output template of each handler is [DIR/] followed by a fixed prefix
    and the two fields yt-dlp fills in, and every name that starts with
    that prefix passes the keyword test of [list_downloaded_files], whatever
    the title and the extension are. *)
Theorem template_names_are_listed cfg h rest names :
  ∃ fixed,
    output_template cfg h =
      download_dir cfg ++ lit "/" ++ fixed ++ lit "%(title)s.%(ext)s" ∧
    is_listed (fixed ++ rest) = true ∧
    listed_files (names ++ [fixed ++ rest]) =
      listed_files names ++ [fixed ++ rest].
Proof.
  exists (handler_key h ++ lit "_opt_").
  assert (Hl : is_listed ((handler_key h ++ lit "_opt_") ++ rest) = true).
  { unfold is_listed, listing_keywords. cbn [existsb].
    rewrite lower_app.
    assert (Hc : contains (lit "opt_") (lower (handler_key h ++ lit "_opt_")) = true)
      by (by destruct h; vm_compute).
    pose proof (contains_app (lit "opt_") [] _ (lower rest) Hc) as Hc'.
    cbn [app] in Hc'. by rewrite Hc'. }
  split.
  - unfold output_template. destruct h; by vm_compute.
  - split; [exact Hl|].
    unfold listed_files. rewrite List.filter_app. cbn [List.filter].
    by rewrite Hl.
Qed.

(** *** Closed instances *)

(** A page of a site that is in no table. *)
Definition elsewhere_page : pystr := lit "https://example.org/clips/42".

(** The theorem on URLs without a domain of the table, at [elsewhere_page]
    under the shipped configuration. *)
Lemma no_domain_no_process_witness :
  ∃ result,
    download_single_video _ scripted_run config elsewhere_page
      (fresh [Completed 0 [] 1%Q]) = Some (result, fresh [Completed 0 [] 1%Q]) ∧
    url result = elsewhere_page ∧
    site result = lit "unknown" ∧
    status result = failed ∧
    error_message result = unsupported_message ∧
    files result = [].
Proof.
  apply (no_domain_no_process scripted_run config elsewhere_page
           (fresh [Completed 0 [] 1%Q])).
  reflexivity.
Defined.

(** The theorem on command lines at a Bilibili task whose first format
    fails and whose second succeeds. *)
Lemma only_ytdlp_is_run_witness :
  ∃ result e',
    download_single_video _ scripted_run config bilibili_page
      (fresh [Completed 1 (lit "ERROR") 2%Q; Completed 0 [] 5%Q])
      = Some (result, e') ∧
    ∃ new,
      started e' =
        started (fresh [Completed 1 (lit "ERROR") 2%Q; Completed 0 [] 5%Q]) ++ new ∧
      (new = [] ∨
       ∃ h sc ua,
         dict_get (site result) handlers = Some h ∧
         dict_get (handler_key h) (supported_sites config) = Some sc ∧
         user_agents config !! 0%nat = Some ua ∧
         (length new ≤ length (formats sc))%nat ∧
         Forall (λ x, ∃ format_str,
                   format_str ∈ formats sc ∧
                   x.1 = [ lit "yt-dlp";
                           lit "--format"; format_str;
                           lit "--output";
                           download_dir config ++ lit "/" ++ handler_key h ++
                             lit "_opt_%(title)s.%(ext)s";
                           lit "--user-agent"; ua;
                           lit "--referer"; referer sc;
                           bilibili_page ]) new).
Proof.
  eexists _, _. split; [reflexivity|].
  apply (only_ytdlp_is_run scripted_run config bilibili_page
           (fresh [Completed 1 (lit "ERROR") 2%Q; Completed 0 [] 5%Q])).
  reflexivity.
Defined.



End Optimized.

(** ** src/config.py *)

Module Config.

(** The [domain] of each entry of [DownloaderConfig.SITE_CONFIGS], in the
    order of the dict literal (the other keys play no part in detection). *)
Definition SITE_CONFIGS : list (pystr * pystr) :=
  [ (lit "bilibili", lit "bilibili.com");
    (lit "sohu", lit "sohu.com");
    (lit "360kan", lit "360kan.com");
    (lit "youtube", lit "youtube.com") ].

(** [DownloaderConfig.detect_site(url)] *)
Fixpoint detect_in (sites : list (pystr * pystr)) (u : pystr) : pystr :=
  match sites with
  | [] => lit "unknown"
  | (name, dom) :: rest => if contains dom u then name else detect_in rest u
  end.

Definition detect_site (u : pystr) : pystr := detect_in SITE_CONFIGS u.

(** [DownloaderConfig.USER_AGENTS] *)
Definition USER_AGENTS : list pystr :=
  [ lit "Mozilla/5.0 (Windows NT 10.0; Win64; x64) AppleWebKit/537.36 (KHTML, like Gecko) Chrome/91.0.4472.124 Safari/537.36";
    lit "Mozilla/5.0 (Windows NT 10.0; Win64; x64; rv:89.0) Gecko/20100101 Firefox/89.0";
    lit "Mozilla/5.0 (Macintosh; Intel Mac OS X 10_15_7) AppleWebKit/537.36 (KHTML, like Gecko) Chrome/91.0.4472.124 Safari/537.36";
    lit "Mozilla/5.0 (X11; Linux x86_64) AppleWebKit/537.36 (KHTML, like Gecko) Chrome/91.0.4472.124 Safari/537.36" ].

(** [l[i]] on a Python list: a negative index counts from the end, and
    [None] stands for [IndexError]. *)
Definition list_getitem {A} (l : list A) (i : Z) : option A :=
  let n := Z.of_nat (length l) in
  if (0 <=? i) && (i <? n) then l !! Z.to_nat i
  else if (- n <=? i) && (i <? 0) then l !! Z.to_nat (n + i)
  else None.

(** [agents[index % len(agents)]]; [None] stands for the exception raised:
    [ZeroDivisionError] on an empty list, [IndexError] otherwise.  Python's
    [%] takes the sign of the divisor, as [Z.modulo] does. *)
Definition get_user_agent_in (agents : list pystr) (index : Z) : option pystr :=
  let n := Z.of_nat (length agents) in
  if n =? 0 then None else list_getitem agents (index mod n).

(** [DownloaderConfig.get_user_agent(index)] *)
Definition get_user_agent (index : Z) : option pystr :=
  get_user_agent_in USER_AGENTS index.

Lemma get_user_agent_in_spec (agents : list pystr) (index : Z) :
  agents ≠ [] →
  ∃ ua,
    get_user_agent_in agents index = Some ua ∧
    agents !! Z.to_nat (index mod Z.of_nat (length agents)) = Some ua.
Proof.
  intros Hne. unfold get_user_agent_in, list_getitem. cbv zeta.
  assert (Hlen : 0 < Z.of_nat (length agents)).
  { destruct agents; [done | simpl; lia]. }
  destruct (Z.of_nat (length agents) =? 0) eqn:E; [apply Z.eqb_eq in E; lia|].
  pose proof (Z.mod_pos_bound index _ Hlen) as Hb.
  destruct (0 <=? _) eqn:E1; [|apply Z.leb_gt in E1; lia].
  destruct (_ <? Z.of_nat (length agents)) eqn:E2; [|apply Z.ltb_ge in E2; lia].
  cbn [andb].
  destruct (agents !! Z.to_nat (index mod Z.of_nat (length agents))) as [ua|] eqn:El.
  - by exists ua.
  - apply lookup_ge_None in El. lia.
Qed.

(** ** X7.  [get_user_agent] answers for every integer, negative ones and
    ones beyond the list included: the index is taken modulo the number of
    user agents, so the answer is an entry of the list, an index from 0 to
    3 selects the entry at that place, and indices that differ by 4 select
    the same entry. *)
Theorem get_user_agent_wraps (index : Z) :
  ∃ ua,
    get_user_agent index = Some ua ∧
    ua ∈ USER_AGENTS ∧
    USER_AGENTS !! Z.to_nat (index mod 4) = Some ua ∧
    get_user_agent (index + 4) = Some ua ∧
    get_user_agent (index - 4) = Some ua.
Proof.
  destruct (get_user_agent_in_spec USER_AGENTS index) as (ua & Hg & Hl); [done|].
  change (Z.of_nat (length USER_AGENTS)) with 4 in Hl.
  exists ua. split; [exact Hg|]. split; [by eapply list_elem_of_lookup_2|].
  split; [exact Hl|].
  destruct (get_user_agent_in_spec USER_AGENTS (index + 4)) as (ua1 & Hg1 & Hl1);
    [done|].
  destruct (get_user_agent_in_spec USER_AGENTS (index - 4)) as (ua2 & Hg2 & Hl2);
    [done|].
  change (Z.of_nat (length USER_AGENTS)) with 4 in Hl1, Hl2.
  replace ((index + 4) mod 4) with (index mod 4) in Hl1
    by (rewrite <- (Z.mul_1_l 4) at 2; by rewrite Z.mod_add).
  replace ((index - 4) mod 4) with (index mod 4) in Hl2
    by (replace (index - 4) with (index + (-1) * 4) by lia; by rewrite Z.mod_add).
  unfold get_user_agent. rewrite Hg1, Hg2. split; congruence.
Qed.

(** ** X8.  The detection of this module and the detection of the
    optimised downloader agree on every URL, but for the URLs this module
    takes for YouTube: the table of the optimised downloader has no such
    entry, and answers [unknown] for them. *)
Theorem detect_site_agrees (u : pystr) :
  Optimized.detect_site Optimized.config u = detect_site u ∨
  (detect_site u = lit "youtube" ∧
   Optimized.detect_site Optimized.config u = lit "unknown").
Proof.
  unfold detect_site, SITE_CONFIGS, Optimized.detect_site, Optimized.config.
  cbn [Optimized.supported_sites Optimized.detect_in Optimized.domain detect_in].
  destruct (contains (lit "bilibili.com") u); [by left|].
  destruct (contains (lit "sohu.com") u); [by left|].
  destruct (contains (lit "360kan.com") u); [by left|].
  destruct (contains (lit "youtube.com") u); [by right | by left].
Qed.

End Config.

(** ** src/main_downloader.py *)

Module Main.

(** What one line typed in [run_interactive_mode] leads to: the loop goes
    on without a word, ends, shows the help or the configuration, starts the
    window, hands the line to [run_cli_mode] as a URL (after printing the
    site [DownloaderConfig.detect_site] finds in it), or says that it does
    not know the line. *)
Inductive action :=
  | Again
  | Leave
  | ShowHelp
  | ShowConfig
  | StartGui
  | Download (site url : pystr)
  | Unrecognised.

Definition url_domains : list pystr :=
  [lit "bilibili.com"; lit "sohu.com"; lit "360kan.com"; lit "youtube.com"].

(** [any(domain in user_input for domain in ['bilibili.com', 'sohu.com',
    '360kan.com', 'youtube.com'])] *)
Definition is_video_url (user_input : pystr) : bool :=
  existsb (λ domain, contains domain user_input) url_domains.

(** The body of the loop of [run_interactive_mode] on one line of input. *)
Definition interpret (line : pystr) : action :=
  let user_input := strip line in
  if PyStr.eqb user_input [] then Again
  else if mem (lower user_input) [lit "quit"; lit "exit"; lit "q"] then Leave
  else if PyStr.eqb (lower user_input) (lit "help") then ShowHelp
  else if PyStr.eqb (lower user_input) (lit "config") then ShowConfig
  else if PyStr.eqb (lower user_input) (lit "gui") then StartGui
  else if is_video_url user_input
       then Download (Config.detect_site user_input) user_input
  else Unrecognised.

Lemma lower_length s : (length s ≤ length (lower s))%nat.
Proof.
  unfold lower. induction s as [|c s IH]; [done|].
  cbn [mbind list_bind]. rewrite length_app. cbn [length].
  assert (1 ≤ length (lower_char c))%nat; [|lia].
  unfold lower_char. repeat case_match; simpl; lia.
Qed.

Lemma contains_length needle hay :
  contains needle hay = true → (length needle ≤ length hay)%nat.
Proof.
  intros H. apply contains_spec in H as (pre & post & ->).
  rewrite !length_app. lia.
Qed.

(** A text longer than a word is not that word, in whatever case. *)
Lemma long_not_word (s w : pystr) :
  (length w < length s)%nat → PyStr.eqb (lower s) w = false.
Proof.
  intros Hl. apply not_true_is_false. intros H. apply eqb_eq in H.
  pose proof (lower_length s) as Hs. rewrite H in Hs. lia.
Qed.

Lemma is_video_url_length s : is_video_url s = true → (8 ≤ length s)%nat.
Proof.
  unfold is_video_url, url_domains. cbn [existsb].
  rewrite !orb_true_iff.
  intros [H | [H | [H | [H | H]]]]; try discriminate;
    apply contains_length in H; revert H;
    match goal with |- (length ?l ≤ _)%nat → _ =>
      let n := eval vm_compute in (length l) in
      change (length l) with n end; lia.
Qed.

(** The test of the loop and the detection of the configuration agree. *)
Lemma is_video_url_detect s :
  is_video_url s = negb (PyStr.eqb (Config.detect_site s) (lit "unknown")).
Proof.
  unfold is_video_url, url_domains, Config.detect_site, Config.SITE_CONFIGS.
  cbn [existsb Config.detect_in].
  destruct (contains (lit "bilibili.com") s); [by vm_compute|].
  destruct (contains (lit "sohu.com") s); [by vm_compute|].
  destruct (contains (lit "360kan.com") s); [by vm_compute|].
  destruct (contains (lit "youtube.com") s); by vm_compute.
Qed.

(** A line that holds one of the domains is neither empty nor a command
    word: it is handed on as a URL. *)
Lemma interpret_video_url (line : pystr) :
  is_video_url (strip line) = true →
  interpret line = Download (Config.detect_site (strip line)) (strip line).
Proof.
  intros Hv. unfold interpret. cbv zeta. rewrite Hv.
  pose proof (is_video_url_length _ Hv) as Hl.
  destruct (PyStr.eqb (strip line) []) eqn:He.
  { apply eqb_eq in He. rewrite He in Hl. simpl in Hl. lia. }
  unfold mem. cbn [existsb].
  assert (Hw : ∀ w : pystr, (length w < 8)%nat →
               PyStr.eqb (lower (strip line)) w = false).
  { intros w Hlw. apply long_not_word. lia. }
  rewrite !(Hw (lit "quit")), !(Hw (lit "exit")), !(Hw (lit "q")),
          !(Hw (lit "help")), !(Hw (lit "config")), !(Hw (lit "gui"));
    try (vm_compute; lia).
  reflexivity.
Qed.

(** ** X9.  A line of the interactive mode is handed to the downloader
    exactly when, stripped of the white space around it, it holds one of the
    four domains of the loop, which is exactly when
    [DownloaderConfig.detect_site] knows a site for it; the site printed is
    then never [unknown], and no command word is mistaken for a URL or a
    URL for a command word. *)
Theorem interactive_download (line : pystr) :
  is_video_url (strip line) =
    negb (PyStr.eqb (Config.detect_site (strip line)) (lit "unknown")) ∧
  if is_video_url (strip line)
  then interpret line = Download (Config.detect_site (strip line)) (strip line)
  else match interpret line with
       | Download _ _ => False
       | _ => True
       end.
Proof.
  split; [apply is_video_url_detect|].
  destruct (is_video_url (strip line)) eqn:Hv.
  - by apply interpret_video_url.
  - unfold interpret. cbv zeta. rewrite Hv.
    repeat (match goal with |- context [if ?b then _ else _] => destruct b end);
      exact I.
Qed.

(** ** X10.  A line that holds [youtube.com] and none of the three other
    domains is taken for a video URL of the site [youtube] and handed to
    the optimised downloader, whose own table does not know the site: the
    task fails with the fixed message, and no process is started. *)
Theorem youtube_recognised_then_refused {World : Type}
    (subprocess_run : list pystr → Z → World → Optimized.run_outcome * World)
    (line : pystr) (e : Optimized.Env World) :
  contains (lit "youtube.com") (strip line) = true →
  contains (lit "bilibili.com") (strip line) = false →
  contains (lit "sohu.com") (strip line) = false →
  contains (lit "360kan.com") (strip line) = false →
  interpret line = Download (lit "youtube") (strip line) ∧
  ∃ result,
    Optimized.download_single_video World subprocess_run Optimized.config
      (strip line) e = Some (result, e) ∧
    Optimized.site result = lit "unknown" ∧
    Optimized.status result = Optimized.failed ∧
    Optimized.error_message result = Optimized.unsupported_message.
Proof.
  intros Hy Hb Hs Hk.
  assert (Hv : is_video_url (strip line) = true).
  { unfold is_video_url, url_domains. cbn [existsb]. by rewrite Hy, Hb, Hs, Hk. }
  assert (Hd : Config.detect_site (strip line) = lit "youtube").
  { unfold Config.detect_site, Config.SITE_CONFIGS. cbn [Config.detect_in].
    by rewrite Hy, Hb, Hs, Hk. }
  split.
  - rewrite <- Hd. by apply interpret_video_url.
  - rewrite (Optimized.unknown_site_fails subprocess_run Optimized.config
               (strip line) e).
    + eexists. split; [reflexivity|]. done.
    + apply Optimized.detect_in_unknown.
      unfold Optimized.config.
      cbn [Optimized.supported_sites forallb snd Optimized.domain].
      by rewrite Hb, Hs, Hk.
Qed.

(** The theorem at a YouTube link typed with a space before it. *)
Lemma youtube_recognised_then_refused_witness :
  interpret (lit " https://www.youtube.com/watch?v=abc") =
    Download (lit "youtube") (strip (lit " https://www.youtube.com/watch?v=abc")) ∧
  ∃ result,
    Optimized.download_single_video _ Optimized.scripted_run Optimized.config
      (strip (lit " https://www.youtube.com/watch?v=abc"))
      (Optimized.fresh [Optimized.Completed 0 [] 1%Q])
      = Some (result, Optimized.fresh [Optimized.Completed 0 [] 1%Q]) ∧
    Optimized.site result = lit "unknown" ∧
    Optimized.status result = Optimized.failed ∧
    Optimized.error_message result = Optimized.unsupported_message.
Proof.
  apply (youtube_recognised_then_refused Optimized.scripted_run
           (lit " https://www.youtube.com/watch?v=abc")
           (Optimized.fresh [Optimized.Completed 0 [] 1%Q])); reflexivity.
Defined.

(** *** The verdict of the command-line mode *)




End Main.

(** ** src/video_downloader.py *)

Module Downloader.

(** *** Names, paths and the download directory *)

(** The bytes of a file. *)
Definition content := list byte.

(** The files of the download directory, by file name.  A file is named
    throughout by its name inside that directory. *)
Abbreviation fsys := (gmap pystr content).

(** [name.rfind(c)], with [None] for [-1]. *)
Fixpoint rfind_char (c : char) (s : pystr) : option nat :=
  match s with
  | [] => None
  | a :: s' =>
      match rfind_char c s' with
      | Some i => Some (S i)
      | None => if char_eqb a c then Some 0%nat else None
      end
  end.

(** The place at which pathlib splits a name into stem and suffix: the last
    dot, unless it is the first or the last character of the name. *)
Definition suffix_index (name : pystr) : option nat :=
  match rfind_char 46%N name with
  | Some (S i) => if decide (S i < length name - 1)%nat then Some (S i) else None
  | _ => None
  end.

(** [Path(name).stem] *)
Definition stem (name : pystr) : pystr :=
  match suffix_index name with
  | Some i => take i name
  | None => name
  end.

(** [Path(name).suffix] *)
Definition suffix (name : pystr) : pystr :=
  match suffix_index name with
  | Some i => drop i name
  | None => []
  end.

(** *** [_sanitize_filename] *)

(** The characters the regular expression names: less-than, greater-than,
    colon, double quote, slash, backslash, bar, question mark, asterisk. *)
Definition illegal (c : char) : bool :=
  ((c =? 60) || (c =? 62) || (c =? 58) || (c =? 34) || (c =? 47) ||
   (c =? 92) || (c =? 124) || (c =? 63) || (c =? 42))%N.

(** [re.sub] with that class and the empty replacement. *)
Definition remove_illegal (filename : pystr) : pystr :=
  List.filter (λ c, negb (illegal c)) filename.

(** The name after the first two statements of [_sanitize_filename]: the
    illegal characters are removed and the length is capped at 100. *)
Definition truncated (filename : pystr) : pystr :=
  let filename := remove_illegal filename in
  if decide (100 < length filename)%nat then take 100 filename else filename.

Definition _sanitize_filename (filename : pystr) : pystr :=
  strip (truncated filename).

(** *** [_is_valid_video_url] *)

Definition video_extensions : list pystr :=
  [lit ".mp4"; lit ".avi"; lit ".mov"; lit ".wmv"; lit ".flv"; lit ".webm";
   lit ".m4v"; lit ".m3u8"; lit ".ts"].

Definition video_keywords : list pystr :=
  [lit "video"; lit "mp4"; lit "stream"; lit "media"; lit "play";
   lit "watch"; lit "v="].

Definition _is_valid_video_url (u : pystr) : bool :=
  if decide (length u < 10)%nat then false
  else
    let url_lower := lower u in
    if existsb (λ ext, contains ext url_lower) video_extensions then true
    else if existsb (λ kw, contains kw url_lower) video_keywords then true
    else if startswith (lit "http") u && bool_decide (20 < length u)%nat then true
    else false.

(** *** [_validate_url] and the choice of a handler *)

(** The sites of [self.supported_sites], in the order of the dict literal. *)
Inductive Site := Baidu | Bilibili | Pinshan | Sohu | Kan360.

Definition supported_sites : list (pystr * Site) :=
  [ (lit "baike.baidu.com", Baidu);
    (lit "bilibili.com", Bilibili);
    (lit "pinshan.com", Pinshan);
    (lit "sohu.com", Sohu);
    (lit "360kan.com", Kan360) ].

(** [for site, func in self.supported_sites.items(): if site in domain:
    handler = func; break] *)
Fixpoint select_handler (sites : list (pystr * Site)) (dom : pystr)
    : option Site :=
  match sites with
  | [] => None
  | (site, h) :: rest =>
      if contains site dom then Some h else select_handler rest dom
  end.

(** [all([result.scheme, result.netloc])] *)
Definition _validate_url (u : pystr) : bool :=
  negb (PyStr.eqb (Url.scheme u) []) && negb (PyStr.eqb (Url.netloc u) []).

(** *** The outside world *)

(** What [subprocess.run(cmd, capture_output=True, text=True, timeout=t)]
    can do: return a completed process, raise [subprocess.TimeoutExpired],
    raise [FileNotFoundError] (the program is missing), or raise something
    else. *)
Inductive proc :=
  | Exit (returncode : Z) (stdout stderr : pystr)
  | Timeout
  | NotFound
  | Failure.

(** What the streaming [requests.get] of [_download_file] can do: raise
    (also through [raise_for_status]), or answer with an optional
    [content-length] header and a body that arrives in chunks; [complete]
    is [false] when reading the body raises after the chunks listed. *)
Inductive http_outcome :=
  | HttpRaised
  | HttpBody (content_length : option pystr) (chunks : list content)
      (complete : bool).

(** The keys of yt-dlp's info dict that the code reads: [title], [url], and
    the [ext] and [url] of each entry of [formats]. *)
Record info := {
  info_title : option pystr;
  info_url : option pystr;
  info_formats : list (option pystr * option pystr)
}.

Inductive extract_outcome :=
  | ExtractRaised
  | ExtractNone
  | Extracted (i : info).

(** What fetching and parsing a page yields to [_manual_extract_pinshan] and
    [_manual_extract_baidu]: an exception, or the candidate links collected
    (in the order the code appends them) with the text of the [title] tag. *)
Inductive scrape_outcome :=
  | ScrapeRaised
  | Scraped (video_urls : list pystr) (title_string : option pystr).

(** The calls made to the outside, in the order they are made. *)
Inductive event :=
  | EvYdlDownload (u outtmpl : pystr) (returned : bool)
  | EvExtractInfo (u : pystr)
  | EvHttpGet (u : pystr)
  | EvScrape (u : pystr)
  | EvYtdlpCli (args : list pystr) (p : proc)
  | EvSelenium (u : pystr)
  | EvMerge (video audio out : pystr) (p : proc)
  | EvProbe (file : pystr) (p : proc)
  | EvFix (file fixed : pystr) (p : proc).

(** The programs and library calls the downloader relies on, over a world
    of type [W].
    - [path name] is [str(self.download_dir / name)];
    - [py_int] is Python's [int] on a [str], [None] standing for
      [ValueError];
    - [glob_match pattern name] is the matching of [Path.glob];
    - [listdir fs] is the order in which [Path.glob] lists the directory;
    - [ffmpeg args fs w] runs an ffmpeg command: it reads files, and writes
      at most the output file that its last argument names, whose content
      is the second component of the answer ([None]: left as it was);
    - [ffprobe args fs w] runs an ffprobe command, which writes no file;
    - [ytdlp_cli args] and [ydl_download fmt u outtmpl] run yt-dlp, as a
      program and through [YoutubeDL(opts).download([u])] with the format
      selector [fmt] and the output template [outtmpl]: they may leave any
      files ([returned] is [false] when the call raises);
    - [ydl_extract_info u fmt w] is [YoutubeDL.extract_info(u,
      download=False)] under the format selector [fmt];
    - [http_get_stream], [scrape], [selenium] answer for the HTTP client,
      for the page parsing of the manual extractors and for the browser;
    - [sohu_video_id u] is [_extract_sohu_video_id(u)] (base64 and a regular
      expression), [query_id u] is
      [parse_qs(urlparse(u).query).get('id', [None])[0]]. *)
Record External (W : Type) := {
  path : pystr → pystr;
  ffmpeg_path : pystr;
  ffprobe_path : pystr;
  py_int : pystr → option Z;
  glob_match : pystr → pystr → bool;
  listdir : fsys → list pystr;
  ffmpeg : list pystr → fsys → W → proc * option content * W;
  ffprobe : list pystr → fsys → W → proc * W;
  ytdlp_cli : list pystr → fsys → W → proc * fsys * W;
  ydl_download : option pystr → pystr → pystr → fsys → W → bool * fsys * W;
  ydl_extract_info : pystr → pystr → W → extract_outcome * W;
  http_get_stream : pystr → W → http_outcome * W;
  scrape : Site → pystr → W → scrape_outcome * W;
  selenium : Site → pystr → pystr → W → option pystr * W;
  sohu_video_id : pystr → option pystr;
  query_id : pystr → option pystr
}.

Arguments path {W}.
Arguments ffmpeg_path {W}.
Arguments ffprobe_path {W}.
Arguments py_int {W}.
Arguments glob_match {W}.
Arguments listdir {W}.
Arguments ffmpeg {W}.
Arguments ffprobe {W}.
Arguments ytdlp_cli {W}.
Arguments ydl_download {W}.
Arguments ydl_extract_info {W}.
Arguments http_get_stream {W}.
Arguments scrape {W}.
Arguments selenium {W}.
Arguments sohu_video_id {W}.
Arguments query_id {W}.

(** The state a call works on: the download directory, the world, and the
    record of the calls made so far. *)
Record State (W : Type) := {
  fs : fsys;
  world : W;
  events : list event
}.

Arguments fs {W}.
Arguments world {W}.
Arguments events {W}.

(** [os.remove(name)]; [None] stands for the exception raised when there is
    no such file. *)
Definition os_remove (name : pystr) (d : fsys) : option fsys :=
  match d !! name with
  | Some _ => Some (delete name d)
  | None => None
  end.

(** What an ffmpeg run leaves at its output path. *)
Definition write_output (out : pystr) (written : option content) (d : fsys)
    : fsys :=
  match written with
  | Some c => <[out := c]> d
  | None => d
  end.

(** [try: os.remove(video_path); os.remove(audio_path) except Exception:
    (warn)] *)
Definition remove_sources (video audio : pystr) (d : fsys) : fsys :=
  match os_remove video d with
  | Some d1 =>
      match os_remove audio d1 with
      | Some d2 => d2
      | None => d1
      end
  | None => d
  end.

(** [try: os.remove(mp4_file); os.rename(fixed_file, mp4_file) except
    Exception: (warn)] *)
Definition replace_original (file fixed : pystr) (d : fsys) : fsys :=
  match os_remove file d with
  | Some d1 =>
      match d1 !! fixed with
      | Some c => <[file := c]> (delete fixed d1)
      | None => d1
      end
  | None => d
  end.

(** The format-qualifier marker of a name. *)
Definition marker : pystr := lit ".f".

Definition has_marker (name : pystr) : bool := contains marker name.

(** [Path(file).stem.split('.f')[0]] *)
Definition base (name : pystr) : pystr := before_first marker (stem name).

Definition video_exts : list pystr := [lit ".mp4"; lit ".mkv"; lit ".webm"; lit ".avi"].
Definition audio_exts : list pystr := [lit ".m4a"; lit ".mp3"; lit ".aac"; lit ".wav"].

(** The three branches of the classification loop of
    [_post_process_downloaded_files].  Every entry of the directory is a
    regular file here. *)
Definition not_log (name : pystr) : bool := negb (endswith (lit ".log") name).

Definition video_cond (name : pystr) : bool :=
  mem (lower (suffix name)) video_exts && has_marker name.

Definition audio_cond (name : pystr) : bool :=
  mem (lower (suffix name)) audio_exts && has_marker name.

Definition mp4_cond (name : pystr) : bool :=
  PyStr.eqb (lower (suffix name)) (lit ".mp4") && negb (has_marker name).

Definition is_video (name : pystr) : bool := not_log name && video_cond name.

Definition is_audio (name : pystr) : bool :=
  not_log name && negb (video_cond name) && audio_cond name.

Definition is_mp4 (name : pystr) : bool :=
  not_log name && negb (video_cond name) && negb (audio_cond name) &&
  mp4_cond name.

(** *** Worlds for the closed examples *)

(** The value of the [id] parameter of a query that holds no escape: the
    text after [?id=] up to the next [&] or [#]. *)
Fixpoint after_first (sep s : pystr) : option pystr :=
  match s with
  | [] => None
  | _ :: s' => if startswith sep s then Some (drop (length sep) s)
               else after_first sep s'
  end.

Definition plain_query_id (u : pystr) : option pystr :=
  (λ v, before_first (lit "#") (before_first (lit "&") v))
    <$> after_first (lit "?id=") u.

(** A pattern [stem.*] matches the names that start with [stem.]. *)
Definition prefix_glob (pattern name : pystr) : bool :=
  startswith (take (length pattern - 1) pattern) name.

(** A machine on which no program is installed and no host answers: every
    call to the outside fails, and no file is written.  The directory is
    listed in the order of its map. *)
Definition offline : External () := {|
  path := λ name, lit "downloads/" ++ name;
  ffmpeg_path := lit "ffmpeg/ffmpeg-8.0-essentials_build/bin/ffmpeg.exe";
  ffprobe_path := lit "ffmpeg/ffmpeg-8.0-essentials_build/bin/ffprobe.exe";
  py_int := int_ascii;
  glob_match := prefix_glob;
  listdir := λ d, (map_to_list d).*1;
  ffmpeg := λ _ _ w, (NotFound, None, w);
  ffprobe := λ _ _ w, (NotFound, w);
  ytdlp_cli := λ _ d w, (NotFound, d, w);
  ydl_download := λ _ _ _ d w, (false, d, w);
  ydl_extract_info := λ _ _ w, (ExtractRaised, w);
  http_get_stream := λ _ w, (HttpRaised, w);
  scrape := λ _ _ w, (ScrapeRaised, w);
  selenium := λ _ _ _ w, (None, w);
  sohu_video_id := λ _, None;
  query_id := plain_query_id
|}.

(** [offline] with an ffmpeg and an ffprobe that answer as given. *)
Definition with_ffmpeg (X : External ())
    (run_ffmpeg : list pystr → fsys → proc * option content)
    (run_ffprobe : list pystr → fsys → proc) : External () := {|
  path := path X;
  ffmpeg_path := ffmpeg_path X;
  ffprobe_path := ffprobe_path X;
  py_int := py_int X;
  glob_match := glob_match X;
  listdir := listdir X;
  ffmpeg := λ args d w, (run_ffmpeg args d, w);
  ffprobe := λ args d w, (run_ffprobe args d, w);
  ytdlp_cli := ytdlp_cli X;
  ydl_download := ydl_download X;
  ydl_extract_info := ydl_extract_info X;
  http_get_stream := http_get_stream X;
  scrape := scrape X;
  selenium := selenium X;
  sohu_video_id := sohu_video_id X;
  query_id := query_id X
|}.

(** [X] with a yt-dlp and an HTTP client that answer as given. *)
Definition with_network (X : External ())
    (cli : list pystr → fsys → proc * fsys)
    (extract : pystr → extract_outcome)
    (get : pystr → http_outcome) : External () := {|
  path := path X;
  ffmpeg_path := ffmpeg_path X;
  ffprobe_path := ffprobe_path X;
  py_int := py_int X;
  glob_match := glob_match X;
  listdir := listdir X;
  ffmpeg := ffmpeg X;
  ffprobe := ffprobe X;
  ytdlp_cli := λ args d w, (cli args d, w);
  ydl_download := ydl_download X;
  ydl_extract_info := λ u _ w, (extract u, w);
  http_get_stream := λ u w, (get u, w);
  scrape := scrape X;
  selenium := selenium X;
  sohu_video_id := sohu_video_id X;
  query_id := query_id X
|}.

(** The state of a fresh run over the directory [d]. *)
Definition start (d : fsys) : State () :=
  {| fs := d; world := (); events := [] |}.

Section Model.

Context {W : Type} (X : External W).

(** The ffmpeg command of [_merge_video_audio]. *)
Definition merge_command (video audio out : pystr) : list pystr :=
  [ ffmpeg_path X;
    lit "-i"; path X video;
    lit "-i"; path X audio;
    lit "-c:v"; lit "copy";
    lit "-c:a"; lit "aac";
    lit "-b:a"; lit "128k";
    lit "-ar"; lit "44100";
    lit "-ac"; lit "2";
    lit "-strict"; lit "experimental";
    lit "-y";
    path X out ].

(** The ffprobe command of [_verify_and_fix_audio]. *)
Definition probe_command (file : pystr) : list pystr :=
  [ ffprobe_path X;
    lit "-v"; lit "error";
    lit "-select_streams"; lit "a:0";
    lit "-show_entries"; lit "stream=codec_name,sample_rate,channels,bit_rate";
    lit "-of"; lit "csv=p=0";
    path X file ].

(** The ffmpeg command of [_fix_audio_stream]. *)
Definition fix_command (file fixed : pystr) : list pystr :=
  [ ffmpeg_path X;
    lit "-i"; path X file;
    lit "-c:v"; lit "copy";
    lit "-c:a"; lit "aac";
    lit "-b:a"; lit "128k";
    lit "-ar"; lit "44100";
    lit "-ac"; lit "2";
    lit "-y";
    path X fixed ].

(** [_merge_video_audio(video_path, audio_path, filename_stem)]: the path of
    the merged file, or [None]. *)
Definition _merge_video_audio (video audio filename_stem : pystr)
    (s : State W) : option pystr * State W :=
  let out := filename_stem ++ lit "_merged.mp4" in
  let '(p, written, w) := ffmpeg X (merge_command video audio out) (fs s) (world s) in
  let d := write_output out written (fs s) in
  let ev := events s ++ [EvMerge video audio out p] in
  match p with
  | Exit rc _ _ =>
      if rc =? 0
      then (Some out, {| fs := remove_sources video audio d; world := w; events := ev |})
      else (None, {| fs := d; world := w; events := ev |})
  | _ => (None, {| fs := d; world := w; events := ev |})
  end.

(** [_fix_audio_stream(mp4_file)] *)
Definition _fix_audio_stream (file : pystr) (s : State W) : State W :=
  let fixed := stem file ++ lit "_fixed_audio.mp4" in
  let '(p, written, w) := ffmpeg X (fix_command file fixed) (fs s) (world s) in
  let d := write_output fixed written (fs s) in
  let ev := events s ++ [EvFix file fixed p] in
  match p with
  | Exit rc _ _ =>
      if rc =? 0
      then {| fs := replace_original file fixed d; world := w; events := ev |}
      else {| fs := delete fixed d; world := w; events := ev |}
  | _ => {| fs := d; world := w; events := ev |}
  end.

(** The decision of [_verify_and_fix_audio] on the answer of ffprobe: the
    value of [needs_fix] when the function reaches its last statement, and
    [false] on each path that returns before.  A missing fourth field
    stands for the bit rate ['0'], whose [int] is 0. *)
Definition needs_fix (p : proc) : bool :=
  match p with
  | Exit rc stdout _ =>
      if negb (rc =? 0) || PyStr.eqb (strip stdout) [] then false
      else
        let audio_info := split_char 44%N (strip stdout) in
        if decide (length audio_info < 3)%nat then false
        else
          let bit_rate_int :=
            match audio_info !! 3%nat with
            | Some bit_rate => py_int X bit_rate
            | None => Some 0
            end in
          let sample_rate_int := audio_info !! 1%nat ≫= py_int X in
          match bit_rate_int with
          | Some b => b <? 64000
          | None => true
          end ||
          match sample_rate_int with
          | Some r => r <? 22050
          | None => false
          end
  | _ => false
  end.

(** [_verify_and_fix_audio(mp4_file)] *)
Definition _verify_and_fix_audio (file : pystr) (s : State W) : State W :=
  let '(p, w) := ffprobe X (probe_command file) (fs s) (world s) in
  let s1 := {| fs := fs s; world := w; events := events s ++ [EvProbe file p] |} in
  if needs_fix p then _fix_audio_stream file s1 else s1.

(** The pairing loops of [_post_process_downloaded_files]: for each video
    file the first audio file of equal base is merged with it, and the path
    of a merge that worked joins the list of MP4 files. *)
Fixpoint merge_pairs (video_files audio_files mp4_files : list pystr)
    (s : State W) : list pystr * State W :=
  match video_files with
  | [] => (mp4_files, s)
  | video_file :: rest =>
      let video_base := base video_file in
      match List.find (λ audio_file, PyStr.eqb video_base (base audio_file))
              audio_files with
      | Some audio_file =>
          let '(merged_file, s1) :=
            _merge_video_audio video_file audio_file video_base s in
          merge_pairs rest audio_files
            (match merged_file with
             | Some m => mp4_files ++ [m]
             | None => mp4_files
             end) s1
      | None => merge_pairs rest audio_files mp4_files s
      end
  end.

(** [for mp4_file in mp4_files: self._verify_and_fix_audio(mp4_file)] *)
Definition verify_all (mp4_files : list pystr) (s : State W) : State W :=
  foldl (λ s f, _verify_and_fix_audio f s) s mp4_files.

(** [_post_process_downloaded_files()] *)
Definition _post_process_downloaded_files (s : State W) : State W :=
  let all_files := listdir X (fs s) in
  let video_files := List.filter is_video all_files in
  let audio_files := List.filter is_audio all_files in
  let mp4_files := List.filter is_mp4 all_files in
  let '(mp4_files, s1) :=
    if bool_decide (1 ≤ length video_files)%nat &&
       bool_decide (1 ≤ length audio_files)%nat
    then merge_pairs video_files audio_files mp4_files s
    else (mp4_files, s) in
  verify_all mp4_files s1.

(** *** Fetching *)

(** The [while filepath.exists()] loop of [_download_file], from the value
    [counter] of its counter, for at most [fuel] rounds. *)
Fixpoint next_free (d : fsys) (name_part ext_part : pystr) (counter fuel : nat)
    : option pystr :=
  match fuel with
  | O => None
  | S fuel' =>
      let candidate := name_part ++ lit "_" ++ str_of_nat counter ++ ext_part in
      match d !! candidate with
      | None => Some candidate
      | Some _ => next_free d name_part ext_part (S counter) fuel'
      end
  end.

(** The name [_download_file] settles on for [filename].  One round more
    than there are files is enough (see [free_path_total]). *)
Definition free_path (d : fsys) (filename : pystr) : option pystr :=
  match d !! filename with
  | None => Some filename
  | Some _ => next_free d (stem filename) (suffix filename) 1 (S (size d))
  end.

(** The dict a handler returns, as far as [_download_file] reads it. *)
Record video_info := {
  vi_title : pystr;
  vi_url : pystr;
  vi_ext : option pystr
}.

(** [_download_with_ytdlp(url, filepath)] *)
Definition _download_with_ytdlp (u filepath : pystr) (s : State W)
    : bool * State W :=
  let outtmpl := path X (stem filepath) ++ lit ".%(ext)s" in
  let '(returned, d, w) := ydl_download X None u outtmpl (fs s) (world s) in
  let s1 := {| fs := d; world := w;
               events := events s ++ [EvYdlDownload u outtmpl returned] |} in
  if returned then
    match List.filter (glob_match X (stem filepath ++ lit ".*")) (listdir X d) with
    | _ :: _ => (true, _post_process_downloaded_files s1)
    | [] => (false, s1)
    end
  else (false, s1).

(** The format selector of [_download_video_with_ytdlp]. *)
Definition page_format : pystr :=
  lit "best[ext=mp4][acodec!=none]/30032+30280/(best[height<=720]/best)+(bestaudio[ext=m4a]/bestaudio)/best".

(** [_download_video_with_ytdlp(url)] *)
Definition _download_video_with_ytdlp (u : pystr) (s : State W)
    : bool * State W :=
  let outtmpl := path X (lit "%(title)s.%(ext)s") in
  let files_before := List.filter not_log (listdir X (fs s)) in
  let '(returned, d, w) :=
    ydl_download X (Some page_format) u outtmpl (fs s) (world s) in
  let s1 := {| fs := d; world := w;
               events := events s ++ [EvYdlDownload u outtmpl returned] |} in
  if returned then
    let files_after := List.filter not_log (listdir X d) in
    match List.filter (λ n, negb (mem n files_before)) files_after with
    | _ :: _ => (true, _post_process_downloaded_files s1)
    | [] => (false, s1)
    end
  else (false, s1).

(** Whether the direct stream of [_download_file] runs to its end, and the
    bytes it leaves in the file it opened ([None]: the file was not opened).
    It fails when the request raises, when the [content-length] header is
    not an integer, and when the body breaks off. *)
Definition direct_stream (o : http_outcome) : bool * option content :=
  match o with
  | HttpRaised => (false, None)
  | HttpBody content_length chunks complete =>
      match content_length with
      | Some t =>
          match py_int X t with
          | Some _ => (complete, Some (concat chunks))
          | None => (false, None)
          end
      | None => (complete, Some (concat chunks))
      end
  end.

(** [_download_file(video_info)] *)
Definition _download_file (video_info : video_info) (s : State W)
    : bool * State W :=
  let video_url := vi_url video_info in
  let title := vi_title video_info in
  let ext := default (lit "mp4") (vi_ext video_info) in
  let filename := title ++ lit "." ++ ext in
  match free_path (fs s) filename with
  | None => (false, s)
  | Some filepath =>
      let '(o, w) := http_get_stream X video_url (world s) in
      let '(done, written) := direct_stream o in
      let s1 := {| fs := write_output filepath written (fs s); world := w;
                   events := events s ++ [EvHttpGet video_url] |} in
      if done then (true, s1)
      else _download_with_ytdlp video_url filepath s1
  end.

(** *** The handlers *)

Inductive handler_result :=
  | Info (v : video_info)
  | NoInfo
  | HandlerRaised.

(** A value that Python takes for true: a text that is there and not empty. *)
Definition truthy (o : option pystr) : option pystr :=
  match o with
  | Some (c :: t) => Some (c :: t)
  | _ => None
  end.

Definition bilibili_format : pystr :=
  lit "bestvideo[ext=mp4]+bestaudio[ext=m4a]/best[ext=mp4]/bestvideo+bestaudio/best".

Definition worst_format : pystr := lit "worst[height<=720]/worst".

(** The choice of [video_url] in [_extract_bilibili_video]. *)
Definition bilibili_url (i : info) : option pystr :=
  match truthy (info_url i) with
  | Some x => Some x
  | None =>
      match List.find (λ f, match f.1, truthy f.2 with
                            | Some e, Some _ => PyStr.eqb e (lit "mp4")
                            | _, _ => false
                            end) (info_formats i) with
      | Some f => truthy f.2
      | None =>
          match info_formats i with
          | f0 :: _ => truthy f0.2
          | [] => None
          end
      end
  end.

(** [_extract_bilibili_video(url)] *)
Definition _extract_bilibili_video (u : pystr) (s : State W)
    : handler_result * State W :=
  let '(o, w) := ydl_extract_info X u bilibili_format (world s) in
  let s1 := {| fs := fs s; world := w; events := events s ++ [EvExtractInfo u] |} in
  match o with
  | Extracted i =>
      match bilibili_url i with
      | Some video_url =>
          let title := default (lit "bilibili_video") (info_title i) in
          let title := _sanitize_filename title in
          (Info {| vi_title := title; vi_url := video_url;
                   vi_ext := Some (lit "mp4") |}, s1)
      | None => (HandlerRaised, s1)
      end
  | _ => (HandlerRaised, s1)
  end.

(** [video_url.split('.')[-1].split('?')[0].lower()], kept when it is one of
    [known] and replaced by ['mp4'] otherwise; ['mp4'] too for a link
    without a dot. *)
Definition infer_ext (known : list pystr) (video_url : pystr) : pystr :=
  if has_char 46%N video_url then
    let ext :=
      lower (before_first (lit "?")
               (default [] (last (split_char 46%N video_url)))) in
    if mem ext known then ext else lit "mp4"
  else lit "mp4".

Definition pinshan_exts : list pystr :=
  [lit "mp4"; lit "avi"; lit "mov"; lit "wmv"; lit "flv"; lit "webm";
   lit "m4v"; lit "m3u8"].

Definition baidu_exts : list pystr :=
  [lit "mp4"; lit "avi"; lit "mov"; lit "wmv"; lit "flv"; lit "webm";
   lit "m4v"].

(** The end of [_manual_extract_pinshan] and [_manual_extract_baidu]: the
    first valid link is taken, the title is the sanitised text of the
    [title] tag or the fixed name [fallback]. *)
Definition _manual_extract (site : Site) (fallback : pystr)
    (known : list pystr) (u : pystr) (s : State W)
    : handler_result * State W :=
  let '(o, w) := scrape X site u (world s) in
  let s1 := {| fs := fs s; world := w; events := events s ++ [EvScrape u] |} in
  match o with
  | ScrapeRaised => (HandlerRaised, s1)
  | Scraped video_urls title_string =>
      match List.find _is_valid_video_url video_urls with
      | Some video_url =>
          let title :=
            match truthy title_string with
            | Some t => _sanitize_filename (strip t)
            | None => fallback
            end in
          (Info {| vi_title := title; vi_url := video_url;
                   vi_ext := Some (infer_ext known video_url) |}, s1)
      | None => (HandlerRaised, s1)
      end
  end.

Definition _manual_extract_pinshan : pystr → State W → handler_result * State W :=
  _manual_extract Pinshan (lit "pinshan_video") pinshan_exts.

Definition _manual_extract_baidu : pystr → State W → handler_result * State W :=
  _manual_extract Baidu (lit "baidu_video") baidu_exts.

(** The common shape of [_extract_pinshan_video] and
    [_extract_baidu_video]: yt-dlp first, the manual extractor after it. *)
Definition extract_then_manual (fallback : pystr)
    (manual : pystr → State W → handler_result * State W)
    (u : pystr) (s : State W) : handler_result * State W :=
  let '(o, w) := ydl_extract_info X u worst_format (world s) in
  let s1 := {| fs := fs s; world := w; events := events s ++ [EvExtractInfo u] |} in
  match o with
  | Extracted i =>
      match truthy (info_url i) with
      | Some video_url =>
          let title := default fallback (info_title i) in
          let title := _sanitize_filename title in
          (Info {| vi_title := title; vi_url := video_url;
                   vi_ext := Some (lit "mp4") |}, s1)
      | None => manual u s1
      end
  | _ => manual u s1
  end.

Definition _extract_pinshan_video : pystr → State W → handler_result * State W :=
  extract_then_manual (lit "pinshan_video") _manual_extract_pinshan.

Definition _extract_baidu_video : pystr → State W → handler_result * State W :=
  extract_then_manual (lit "baidu_video") _manual_extract_baidu.

(** [_try_ytdlp_download_sohu(url, filename_prefix)] *)
Definition _try_ytdlp_download_sohu (u filename_prefix : pystr) (s : State W)
    : bool * State W :=
  let output_template := path X (filename_prefix ++ lit "_%(title)s.%(ext)s") in
  let cmd := [ lit "yt-dlp"; lit "--output"; output_template;
               lit "--format"; lit "best[ext=mp4]/best";
               lit "--no-playlist"; lit "--no-warnings"; u ] in
  let '(p, d, w) := ytdlp_cli X cmd (fs s) (world s) in
  let s1 := {| fs := d; world := w; events := events s ++ [EvYtdlpCli cmd p] |} in
  match p with
  | Exit rc _ _ => (rc =? 0, s1)
  | _ => (false, s1)
  end.

(** ['搜狐视频_'] and ['360kan视频_'] *)
Definition sohu_title_prefix : pystr := [25628; 29392; 35270; 39057; 95]%N.
Definition kan360_title_prefix : pystr :=
  [51; 54; 48; 107; 97; 110; 35270; 39057; 95]%N.

(** The common shape of [_extract_sohu_video] and [_extract_360kan_video]
    once the video id is known: yt-dlp on the page, the browser after it.
    The title is the prefix followed by the id as it came. *)
Definition extract_by_id (site : Site) (file_prefix title_prefix : pystr)
    (video_id : option pystr) (u : pystr) (s : State W)
    : handler_result * State W :=
  match truthy video_id with
  | None => (NoInfo, s)
  | Some video_id =>
      let '(ok, s1) := _try_ytdlp_download_sohu u (file_prefix ++ video_id) s in
      if ok then
        (Info {| vi_title := title_prefix ++ video_id; vi_url := u;
                 vi_ext := None |}, s1)
      else
        let '(video_url, w) := selenium X site u video_id (world s1) in
        let s2 := {| fs := fs s1; world := w;
                     events := events s1 ++ [EvSelenium u] |} in
        match truthy video_url with
        | Some video_url =>
            (Info {| vi_title := title_prefix ++ video_id;
                     vi_url := video_url; vi_ext := None |}, s2)
        | None => (NoInfo, s2)
        end
  end.

(** [_extract_sohu_video(url)] *)
Definition _extract_sohu_video (u : pystr) : State W → handler_result * State W :=
  extract_by_id Sohu (lit "sohu_") sohu_title_prefix (sohu_video_id X u) u.

(** [_extract_360kan_video(url)] *)
Definition _extract_360kan_video (u : pystr) : State W → handler_result * State W :=
  extract_by_id Kan360 (lit "360kan_") kan360_title_prefix (query_id X u) u.

Definition handler (h : Site) : pystr → State W → handler_result * State W :=
  match h with
  | Baidu => _extract_baidu_video
  | Bilibili => _extract_bilibili_video
  | Pinshan => _extract_pinshan_video
  | Sohu => _extract_sohu_video
  | Kan360 => _extract_360kan_video
  end.

(** [download_video(url)].  Every exception the body raises ends in
    [return False]. *)
Definition download_video (u : pystr) (s : State W) : bool * State W :=
  if negb (_validate_url u) then (false, s)
  else
    let '(ok, s1) := _download_video_with_ytdlp u s in
    if ok then (true, s1)
    else
      let domain := lower (Url.netloc u) in
      match select_handler supported_sites domain with
      | None => (false, s1)
      | Some h =>
          let '(r, s2) := handler h u s1 in
          match r with
          | Info video_info => _download_file video_info s2
          | _ => (false, s2)
          end
      end.

(** *** Facts about [strip] and [_sanitize_filename] *)

Lemma lstrip_suffix s : ∃ p, s = p ++ lstrip s.
Proof.
  induction s as [|c s [p IH]]; simpl.
  - by exists [].
  - destruct (isspace c).
    + exists (c :: p). simpl. by f_equal.
    + by exists [].
Qed.

Lemma rstrip_prefix s : ∃ q, s = rstrip s ++ q.
Proof.
  unfold rstrip. destruct (lstrip_suffix (reverse s)) as [p Hp].
  exists (reverse p).
  rewrite <- reverse_app, <- Hp. by rewrite reverse_involutive.
Qed.

(** Stripping keeps a contiguous part of the text. *)
Lemma strip_infix s : ∃ p q, s = p ++ strip s ++ q.
Proof.
  unfold strip. destruct (lstrip_suffix s) as [p Hp].
  destruct (rstrip_prefix (lstrip s)) as [q Hq].
  exists p, q. by rewrite <- Hq.
Qed.

Lemma strip_length s : (length (strip s) ≤ length s)%nat.
Proof.
  destruct (strip_infix s) as (p & q & H).
  rewrite H at 2. rewrite !length_app. lia.
Qed.

Lemma strip_forallb (f : char → bool) s :
  forallb f s = true → forallb f (strip s) = true.
Proof.
  destruct (strip_infix s) as (p & q & H). rewrite H at 1.
  rewrite !forallb_app, !andb_true_iff. tauto.
Qed.

Lemma remove_illegal_clean filename :
  forallb (λ c, negb (illegal c)) (remove_illegal filename) = true.
Proof.
  unfold remove_illegal. induction filename as [|c s IH]; simpl; [done|].
  destruct (illegal c) eqn:E; simpl; [done|]. by rewrite E, IH.
Qed.

Lemma forallb_take {A} (f : A → bool) n l :
  forallb f l = true → forallb f (take n l) = true.
Proof.
  rewrite <- (take_drop n l) at 1. rewrite forallb_app, andb_true_iff. tauto.
Qed.

Lemma truncated_clean filename :
  forallb (λ c, negb (illegal c)) (truncated filename) = true.
Proof.
  unfold truncated. pose proof (remove_illegal_clean filename).
  destruct (decide _); [by apply forallb_take | done].
Qed.

Lemma truncated_length filename : (length (truncated filename) ≤ 100)%nat.
Proof.
  unfold truncated. destruct (decide _) as [H|H].
  - rewrite length_take. lia.
  - lia.
Qed.

(** The sanitiser, on every text: none of the nine characters is left; the
    name is at most 100 characters long before the surrounding white space
    is stripped, and so after it. *)
Lemma sanitize_filename_spec filename :
  forallb (λ c, negb (illegal c)) (_sanitize_filename filename) = true ∧
  _sanitize_filename filename = strip (truncated filename) ∧
  (length (truncated filename) ≤ 100)%nat ∧
  (length (_sanitize_filename filename) ≤ 100)%nat.
Proof.
  unfold _sanitize_filename. repeat split.
  - apply strip_forallb, truncated_clean.
  - apply truncated_length.
  - pose proof (strip_length (truncated filename)).
    pose proof (truncated_length filename). lia.
Qed.

(** *** Verifying and repairing the audio stream *)

(** What the probe tells about the bit rate: the fourth field when there is
    one, taken through [int]; a missing field counts as 0. *)
Definition bit_rate_of (fields : list pystr) : option Z :=
  match fields !! 3%nat with
  | Some bit_rate => py_int X bit_rate
  | None => Some 0
  end.

Definition sample_rate_of (fields : list pystr) : option Z :=
  fields !! 1%nat ≫= py_int X.

(** The repair is run exactly when [needs_fix] says so, right after the
    probe. *)
Lemma verify_and_fix_audio_unfold file s :
  ∃ p w,
    ffprobe X (probe_command file) (fs s) (world s) = (p, w) ∧
    _verify_and_fix_audio file s =
      let s1 := {| fs := fs s; world := w;
                   events := events s ++ [EvProbe file p] |} in
      if needs_fix p then _fix_audio_stream file s1 else s1.
Proof.
  unfold _verify_and_fix_audio.
  destruct (ffprobe X _ _ _) as [p w]. by exists p, w.
Qed.

Lemma fix_audio_stream_events file s :
  ∃ p, events (_fix_audio_stream file s) =
         events s ++ [EvFix file (stem file ++ lit "_fixed_audio.mp4") p].
Proof.
  unfold _fix_audio_stream.
  destruct (ffmpeg X _ _ _) as [[p written] w]. exists p.
  destruct p as [rc out err| | |]; [destruct (rc =? 0)|..]; reflexivity.
Qed.

(** [needs_fix], read as a condition on the answer of the probe. *)
Lemma needs_fix_spec p :
  needs_fix p = true ↔
  ∃ stdout err,
    p = Exit 0 stdout err ∧
    strip stdout ≠ [] ∧
    (3 ≤ length (split_char 44%N (strip stdout)))%nat ∧
    let fields := split_char 44%N (strip stdout) in
    (bit_rate_of fields = None ∨
     (∃ b, bit_rate_of fields = Some b ∧ b < 64000) ∨
     (∃ r, sample_rate_of fields = Some r ∧ r < 22050)).
Proof.
  unfold needs_fix, bit_rate_of, sample_rate_of. split.
  - destruct p as [rc stdout err| | |]; try discriminate.
    destruct (rc =? 0) eqn:Hrc; simpl; [|discriminate].
    apply Z.eqb_eq in Hrc. subst rc.
    destruct (PyStr.eqb (strip stdout) []) eqn:He; [discriminate|].
    destruct (decide _) as [Hl|Hl]; [discriminate|].
    intros H. exists stdout, err. split; [done|]. split.
    { intros E. rewrite E in He. discriminate. }
    split; [lia|]. cbv zeta.
    apply orb_true_iff in H as [H|H].
    + destruct (match _ !! 3%nat with Some b => _ | None => _ end) as [b|].
      * right. left. exists b. split; [done|]. by apply Z.ltb_lt.
      * by left.
    + right. right.
      destruct (_ ≫= _) as [r|]; [|discriminate].
      exists r. split; [done|]. by apply Z.ltb_lt.
  - intros (stdout & err & -> & Hne & Hl & H). cbv zeta in H.
    change (0 =? 0) with true. simpl negb.
    destruct (PyStr.eqb (strip stdout) []) eqn:He.
    { apply eqb_eq in He. done. }
    simpl. destruct (decide _) as [Hl'|_]; [lia|].
    apply orb_true_iff.
    destruct H as [H | [(b & H & Hb) | (r & H & Hr)]].
    + left. by rewrite H.
    + left. rewrite H. by apply Z.ltb_lt.
    + right. rewrite H. by apply Z.ltb_lt.
Qed.

(** ** C6, as the code has it.  A probed file is given to the repair exactly
    when ffprobe exits with code 0, prints a non-empty line of at least
    three comma-separated fields, and the bit rate is unreadable, or below
    64000, or the sample rate is readable and below 22050.  A file for
    which the probe fails or prints nothing (no audio stream) is not
    repaired: the function returns before the checks. *)
Theorem repair_decision file s :
  ∃ p w,
    ffprobe X (probe_command file) (fs s) (world s) = (p, w) ∧
    (needs_fix p = true ↔
     ∃ stdout err,
       p = Exit 0 stdout err ∧
       strip stdout ≠ [] ∧
       (3 ≤ length (split_char 44%N (strip stdout)))%nat ∧
       let fields := split_char 44%N (strip stdout) in
       (bit_rate_of fields = None ∨
        (∃ b, bit_rate_of fields = Some b ∧ b < 64000) ∨
        (∃ r, sample_rate_of fields = Some r ∧ r < 22050))) ∧
    (if needs_fix p
     then ∃ q, events (_verify_and_fix_audio file s) =
               events s ++ [EvProbe file p;
                            EvFix file (stem file ++ lit "_fixed_audio.mp4") q]
     else _verify_and_fix_audio file s =
            {| fs := fs s; world := w; events := events s ++ [EvProbe file p] |}).
Proof.
  destruct (verify_and_fix_audio_unfold file s) as (p & w & Hp & Hv).
  exists p, w. split; [done|]. split; [apply needs_fix_spec|].
  rewrite Hv. cbv zeta. destruct (needs_fix p); [|done].
  destruct (fix_audio_stream_events file
    {| fs := fs s; world := w; events := events s ++ [EvProbe file p] |})
    as [q Hq].
  exists q. rewrite Hq. simpl. by rewrite <- app_assoc.
Qed.

(** ** C8.  Verification leaves a healthy file alone: when the probe
    reports a bit rate of at least 64000 and a sample rate of at least
    22050, no repair is run and the directory is as it was. *)
Theorem healthy_file_unaltered file s stdout err w codec sr ch br rest b r :
  ffprobe X (probe_command file) (fs s) (world s) = (Exit 0 stdout err, w) →
  split_char 44%N (strip stdout) = codec :: sr :: ch :: br :: rest →
  py_int X br = Some b → 64000 ≤ b →
  py_int X sr = Some r → 22050 ≤ r →
  fs (_verify_and_fix_audio file s) = fs s ∧
  events (_verify_and_fix_audio file s) =
    events s ++ [EvProbe file (Exit 0 stdout err)].
Proof.
  intros Hp Hf Hb Hb64 Hr Hr22.
  destruct (verify_and_fix_audio_unfold file s) as (p & w' & Hp' & Hv).
  rewrite Hp in Hp'. injection Hp' as <- <-.
  rewrite Hv. cbv zeta.
  assert (Hn : needs_fix (Exit 0 stdout err) = false).
  { apply not_true_is_false. intros Hn.
    apply needs_fix_spec in Hn as (so & er & [= <- <-] & _ & _ & H).
    cbv zeta in H. rewrite Hf in H. unfold bit_rate_of, sample_rate_of in H.
    simpl in H. rewrite Hb, Hr in H.
    destruct H as [H | [(b' & [= <-] & H) | (r' & [= <-] & H)]];
      [discriminate | lia | lia]. }
  by rewrite Hn.
Qed.

(** *** The record of calls only grows *)

Definition extends (s s' : State W) : Prop :=
  ∃ rest, events s' = events s ++ rest.

Lemma extends_refl s : extends s s.
Proof. exists []. by rewrite app_nil_r. Qed.

Lemma extends_trans s1 s2 s3 : extends s1 s2 → extends s2 s3 → extends s1 s3.
Proof.
  intros [r1 H1] [r2 H2]. exists (r1 ++ r2). by rewrite H2, H1, app_assoc.
Qed.

Lemma fix_audio_stream_extends file s : extends s (_fix_audio_stream file s).
Proof. destruct (fix_audio_stream_events file s) as [p H]. by eexists. Qed.

Lemma verify_and_fix_audio_extends file s :
  extends s (_verify_and_fix_audio file s).
Proof.
  destruct (verify_and_fix_audio_unfold file s) as (p & w & _ & ->).
  cbv zeta. destruct (needs_fix p).
  - eapply extends_trans; [|apply fix_audio_stream_extends]. by eexists.
  - by eexists.
Qed.

Lemma verify_all_extends files s : extends s (verify_all files s).
Proof.
  unfold verify_all. revert s. induction files as [|f files IH]; intros s; simpl.
  - apply extends_refl.
  - eapply extends_trans; [apply verify_and_fix_audio_extends | apply IH].
Qed.

Lemma merge_video_audio_events video audio filename_stem s :
  ∃ p, events (_merge_video_audio video audio filename_stem s).2 =
         events s ++ [EvMerge video audio (filename_stem ++ lit "_merged.mp4") p].
Proof.
  unfold _merge_video_audio.
  destruct (ffmpeg X _ _ _) as [[p written] w]. exists p.
  destruct p as [rc out err| | |]; [destruct (rc =? 0)|..]; reflexivity.
Qed.

Lemma merge_pairs_extends video_files audio_files mp4_files s :
  extends s (merge_pairs video_files audio_files mp4_files s).2.
Proof.
  revert mp4_files s.
  induction video_files as [|v rest IH]; intros mp4_files s; simpl.
  - apply extends_refl.
  - destruct (List.find _ audio_files) as [a|]; [|apply IH].
    destruct (merge_video_audio_events v a (base v) s) as [p Hp].
    destruct (_merge_video_audio v a (base v) s) as [m s1]. simpl in Hp.
    eapply extends_trans; [|apply IH]. by eexists.
Qed.

Lemma post_process_extends s : extends s (_post_process_downloaded_files s).
Proof.
  unfold _post_process_downloaded_files. cbv zeta.
  destruct (_ && _).
  - pose proof (merge_pairs_extends
      (List.filter is_video (listdir X (fs s)))
      (List.filter is_audio (listdir X (fs s)))
      (List.filter is_mp4 (listdir X (fs s))) s) as H.
    destruct (merge_pairs _ _ _ s) as [m s1]. simpl in H.
    eapply extends_trans; [exact H | apply verify_all_extends].
  - apply verify_all_extends.
Qed.

(** *** A free name is always found *)

Definition candidate (name_part ext_part : pystr) (counter : nat) : pystr :=
  name_part ++ lit "_" ++ str_of_nat counter ++ ext_part.

Lemma candidate_inj name_part ext_part : Inj eq eq (candidate name_part ext_part).
Proof.
  intros n m H. unfold candidate in H.
  apply app_inv_head in H. apply app_inv_head in H.
  apply app_inv_tail in H. by apply str_of_nat_inj.
Qed.

Lemma next_free_S d name_part ext_part counter fuel :
  next_free d name_part ext_part counter (S fuel) =
    match d !! candidate name_part ext_part counter with
    | None => Some (candidate name_part ext_part counter)
    | Some _ => next_free d name_part ext_part (S counter) fuel
    end.
Proof. reflexivity. Qed.

Lemma next_free_Some d name_part ext_part counter fuel p :
  next_free d name_part ext_part counter fuel = Some p → d !! p = None.
Proof.
  revert counter. induction fuel as [|fuel IH]; intros counter; [done|].
  rewrite next_free_S.
  destruct (d !! candidate _ _ _) eqn:E; [apply IH|]. by intros [= <-].
Qed.

Lemma next_free_None d name_part ext_part counter fuel :
  next_free d name_part ext_part counter fuel = None →
  ∀ i, (i < fuel)%nat → is_Some (d !! candidate name_part ext_part (counter + i)).
Proof.
  revert counter. induction fuel as [|fuel IH]; intros counter.
  - intros _ i Hi. lia.
  - rewrite next_free_S.
    destruct (d !! candidate _ _ _) eqn:E; [|discriminate].
    intros H i Hi. destruct i as [|i].
    + rewrite Nat.add_0_r, E. by eexists.
    + replace (counter + S i)%nat with (S counter + i)%nat by lia.
      apply IH; [done | lia].
Qed.

(** More candidates than files cannot all be taken. *)
Lemma next_free_enough (d : fsys) name_part ext_part counter :
  is_Some (next_free d name_part ext_part counter (S (size d))).
Proof.
  destruct (next_free _ _ _ _ _) eqn:E; [by eexists|]. exfalso.
  pose proof (next_free_None _ _ _ _ _ E) as Hall.
  set (l := candidate name_part ext_part <$> seq counter (S (size d))).
  assert (Hnd : NoDup l).
  { apply NoDup_fmap_2; [apply candidate_inj | apply NoDup_seq]. }
  assert (Hsub : (list_to_set l : gset pystr) ⊆ dom d).
  { intros x Hx. apply elem_of_list_to_set in Hx.
    apply list_elem_of_fmap in Hx as (i & -> & Hi).
    apply elem_of_seq in Hi. apply elem_of_dom.
    replace i with (counter + (i - counter))%nat by lia.
    apply Hall. lia. }
  apply subseteq_size in Hsub.
  rewrite size_list_to_set in Hsub by done.
  rewrite size_dom in Hsub. unfold l in Hsub.
  rewrite length_fmap, length_seq in Hsub. lia.
Qed.

(** The collision loop of [_download_file] ends, on a name that is free. *)
Lemma free_path_total (d : fsys) filename :
  ∃ p, free_path d filename = Some p ∧ d !! p = None.
Proof.
  unfold free_path. destruct (d !! filename) eqn:E.
  - destruct (next_free_enough d (stem filename) (suffix filename) 1) as [p Hp].
    exists p. split; [done|]. by apply next_free_Some in Hp.
  - by exists filename.
Qed.

(** *** The fallback of [_download_file] *)

Lemma download_with_ytdlp_events u filepath s :
  ∃ returned rest,
    events (_download_with_ytdlp u filepath s).2 =
      events s ++
      EvYdlDownload u (path X (stem filepath) ++ lit ".%(ext)s") returned :: rest.
Proof.
  unfold _download_with_ytdlp.
  destruct (ydl_download X _ _ _ _ _) as [[returned d] w].
  exists returned. destruct returned.
  - destruct (List.filter _ _).
    + exists []. reflexivity.
    + match goal with |- context [_post_process_downloaded_files ?s1] =>
        destruct (post_process_extends s1) as [r Hr] end.
      exists r. simpl. rewrite Hr. simpl. by rewrite <- app_assoc.
  - exists []. reflexivity.
Qed.

(** ** C7, as the code has it.  When the direct stream fails, the fallback
    is run: yt-dlp is called in download mode on the URL of the extracted
    video information ([video_info['url']], the address the direct stream
    was tried on), with an output template made from the chosen file name.
    The page URL of the task is not an argument of [_download_file]. *)
Theorem fallback_uses_info_url (v : video_info) (s : State W) o w :
  http_get_stream X (vi_url v) (world s) = (o, w) →
  (direct_stream o).1 = false →
  ∃ filepath returned rest,
    free_path (fs s)
      (vi_title v ++ lit "." ++ default (lit "mp4") (vi_ext v)) = Some filepath ∧
    events (_download_file v s).2 =
      events s ++
      [ EvHttpGet (vi_url v);
        EvYdlDownload (vi_url v) (path X (stem filepath) ++ lit ".%(ext)s")
          returned ] ++ rest.
Proof.
  intros Ho Hd. unfold _download_file. cbv zeta.
  destruct (free_path_total (fs s)
    (vi_title v ++ lit "." ++ default (lit "mp4") (vi_ext v))) as (p & Hp & _).
  rewrite Hp, Ho. destruct (direct_stream o) as [done written].
  simpl in Hd. subst done.
  match goal with |- context [_download_with_ytdlp ?u ?f ?s1] =>
    destruct (download_with_ytdlp_events u f s1) as (returned & rest & Hev) end.
  exists p, returned, rest. split; [done|].
  rewrite Hev. simpl. by rewrite <- app_assoc.
Qed.

(** *** Names with and without the marker *)

















(** *** Reconciling the files of a download *)

(** Whether a process completed with exit code 0. *)
Definition exit_ok (p : proc) : bool :=
  match p with
  | Exit rc _ _ => rc =? 0
  | _ => false
  end.




Definition is_merge (e : event) : bool :=
  match e with
  | EvMerge _ _ _ _ => true
  | _ => false
  end.



Lemma write_output_other (out : pystr) (written : option content) (d : fsys) (n : pystr) :
  n ≠ out → write_output out written d !! n = d !! n.
Proof.
  intros H. destruct written; simpl; [|done]. by rewrite lookup_insert_ne.
Qed.



Lemma fix_audio_stream_frame file s n :
  n ≠ file → n ≠ stem file ++ lit "_fixed_audio.mp4" →
  fs (_fix_audio_stream file s) !! n = fs s !! n.
Proof.
  intros Hf Hx. unfold _fix_audio_stream.
  destruct (ffmpeg X _ _ _) as [[p written] w].
  assert (Hd : write_output (stem file ++ lit "_fixed_audio.mp4") written (fs s) !! n
               = fs s !! n) by (by apply write_output_other).
  destruct p as [rc out err| | |]; cbn [fs]; try done.
  destruct (rc =? 0); cbn [fs].
  - unfold replace_original, os_remove.
    destruct (write_output _ _ _ !! file); [|done].
    destruct (delete file _ !! _).
    + by rewrite lookup_insert_ne, !lookup_delete_ne.
    + by rewrite lookup_delete_ne.
  - by rewrite lookup_delete_ne.
Qed.




Lemma rfind_char_lookup c (s : pystr) i :
  rfind_char c s = Some i → s !! i = Some c.
Proof.
  revert i. induction s as [|a s IH]; intros i; [done|].
  cbn [rfind_char]. destruct (rfind_char c s) as [k|].
  - intros [= <-]. cbn. by apply IH.
  - destruct (char_eqb a c) eqn:E; [|discriminate].
    intros [= <-]. apply char_eqb_eq in E. by subst.
Qed.

(** The repaired copy of a file has another name than the file. *)
Lemma fixed_ne_file file : stem file ++ lit "_fixed_audio.mp4" ≠ file.
Proof.
  assert (Hlen : ∀ l : pystr, l ++ lit "_fixed_audio.mp4" ≠ l).
  { intros l H. apply (f_equal length) in H. rewrite length_app in H.
    change (length (lit "_fixed_audio.mp4")) with 16%nat in H. lia. }
  unfold stem, suffix_index. intros H.
  destruct (rfind_char 46%N file) as [[|i]|] eqn:Er; try by apply Hlen in H.
  destruct (decide _); [|by apply Hlen in H].
  apply rfind_char_lookup in Er.
  rewrite <- (take_drop (S i) file) in H at 2.
  apply app_inv_head in H.
  assert (Hx : drop (S i) file !! 0%nat = Some 46%N).
  { rewrite lookup_drop, Nat.add_0_r. exact Er. }
  rewrite <- H in Hx. discriminate Hx.
Qed.
















(** *** Where the titles come from *)

(** The three handlers that read a title from yt-dlp or from the page pass
    it through the sanitiser, or use a fixed name. *)
Lemma handler_title_sanitized h u s v s' :
  h = Baidu ∨ h = Bilibili ∨ h = Pinshan →
  handler h u s = (Info v, s') →
  (∃ t, vi_title v = _sanitize_filename t) ∨
  vi_title v = lit "pinshan_video" ∨ vi_title v = lit "baidu_video".
Proof.
  assert (Hman : ∀ site fallback known u s v s',
    _manual_extract site fallback known u s = (Info v, s') →
    (∃ t, vi_title v = _sanitize_filename t) ∨ vi_title v = fallback).
  { intros site fallback known u0 s0 v0 s0'. unfold _manual_extract.
    destruct (scrape X _ _ _) as [[|urls title] w]; [discriminate|].
    destruct (List.find _ urls); [|discriminate].
    intros [= <- <-]. cbn. destruct (truthy title); eauto. }
  assert (Hext : ∀ fallback manual u s v s',
    (∀ u s v s', manual u s = (Info v, s') →
       (∃ t, vi_title v = _sanitize_filename t) ∨ vi_title v = fallback) →
    extract_then_manual fallback manual u s = (Info v, s') →
    (∃ t, vi_title v = _sanitize_filename t) ∨ vi_title v = fallback).
  { intros fallback manual u0 s0 v0 s0' Hm. unfold extract_then_manual.
    destruct (ydl_extract_info X _ _ _) as [[| |i] w]; try apply Hm.
    destruct (truthy (info_url i)); [|apply Hm].
    intros [= <- <-]. cbn. eauto. }
  intros [-> | [-> | ->]]; cbn [handler].
  - intros H. eapply Hext in H; [|apply Hman]. tauto.
  - unfold _extract_bilibili_video.
    destruct (ydl_extract_info X _ _ _) as [[| |i] w]; try discriminate.
    destruct (bilibili_url i); [|discriminate].
    intros [= <- <-]. cbn. eauto.
  - intros H. eapply Hext in H; [|apply Hman]. tauto.
Qed.

(** The two handlers that go by a video id build the title from the id as
    it came. *)
Lemma extract_by_id_title site file_prefix title_prefix video_id u s v s' :
  extract_by_id site file_prefix title_prefix video_id u s = (Info v, s') →
  ∃ id, truthy video_id = Some id ∧ vi_title v = title_prefix ++ id.
Proof.
  unfold extract_by_id. destruct (truthy video_id) as [id|]; [|discriminate].
  destruct (_try_ytdlp_download_sohu _ _ _) as [[|] s1].
  - intros [= <- <-]. by exists id.
  - destruct (selenium X _ _ _ _) as [video_url w].
    destruct (truthy video_url); [|discriminate].
    intros [= <- <-]. by exists id.
Qed.

(** The title of the video information names the file that is written. *)
Lemma download_file_name (v : video_info) (s : State W) o w body :
  fs s !! (vi_title v ++ lit "." ++ default (lit "mp4") (vi_ext v)) = None →
  http_get_stream X (vi_url v) (world s) = (o, w) →
  direct_stream o = (true, Some body) →
  (_download_file v s).1 = true ∧
  fs (_download_file v s).2
    !! (vi_title v ++ lit "." ++ default (lit "mp4") (vi_ext v)) = Some body.
Proof.
  intros Hfree Ho Hd. unfold _download_file. cbv zeta.
  assert (Hp : free_path (fs s)
                 (vi_title v ++ lit "." ++ default (lit "mp4") (vi_ext v))
               = Some (vi_title v ++ lit "." ++ default (lit "mp4") (vi_ext v))).
  { unfold free_path. destruct (fs s !! _) eqn:E; [discriminate Hfree | done]. }
  rewrite Hp, Ho, Hd. cbn.
  split; [done|]. apply lookup_insert_eq.
Qed.


(** *** The sanitiser applied twice *)

Lemma lstrip_head s :
  lstrip s = [] ∨ ∃ c t, lstrip s = c :: t ∧ isspace c = false.
Proof.
  induction s as [|c s IH]; simpl; [by left|].
  destruct (isspace c) eqn:E; [exact IH|]. right. by exists c, s.
Qed.

Lemma lstrip_fixed s :
  (∀ c t, s = c :: t → isspace c = false) → lstrip s = s.
Proof.
  destruct s as [|c t]; [done|]. intros H. simpl. by rewrite (H c t).
Qed.

Lemma lstrip_idemp s : lstrip (lstrip s) = lstrip s.
Proof.
  apply lstrip_fixed. intros c t H.
  destruct (lstrip_head s) as [E | (c' & t' & E & Hc)]; rewrite E in H.
  - discriminate.
  - by injection H as <- <-.
Qed.

Lemma rstrip_idemp s : rstrip (rstrip s) = rstrip s.
Proof.
  unfold rstrip. by rewrite reverse_involutive, lstrip_idemp.
Qed.

(** Stripping on the right keeps the first character, when any is left. *)
Lemma lstrip_rstrip s :
  (∀ c t, s = c :: t → isspace c = false) → lstrip (rstrip s) = rstrip s.
Proof.
  intros H. apply lstrip_fixed. intros c t E.
  destruct (rstrip_prefix s) as [q Hq]. rewrite E in Hq.
  by apply (H c (t ++ q)).
Qed.

Lemma strip_lstrip s : lstrip (strip s) = strip s.
Proof.
  unfold strip. apply lstrip_rstrip. intros c t E.
  destruct (lstrip_head s) as [E' | (c' & t' & E' & Hc)]; rewrite E' in E.
  - discriminate.
  - by injection E as <- <-.
Qed.

Lemma strip_rstrip s : rstrip (strip s) = strip s.
Proof. unfold strip. apply rstrip_idemp. Qed.

Lemma strip_idemp s : strip (strip s) = strip s.
Proof.
  unfold strip at 1. by rewrite strip_lstrip, strip_rstrip.
Qed.

(** ** X12.  A sanitised name is a fixed point of the sanitiser: it holds
    none of the nine characters, it is at most 100 characters long, no white
    space is left at either end, and sanitising it again gives the same
    name. *)
Theorem sanitize_filename_stable (filename : pystr) :
  forallb (λ c, negb (illegal c)) (_sanitize_filename filename) = true ∧
  (length (_sanitize_filename filename) ≤ 100)%nat ∧
  lstrip (_sanitize_filename filename) = _sanitize_filename filename ∧
  rstrip (_sanitize_filename filename) = _sanitize_filename filename ∧
  _sanitize_filename (_sanitize_filename filename) = _sanitize_filename filename.
Proof.
  destruct (sanitize_filename_spec filename) as (Hc & _ & _ & Hl).
  split; [exact Hc|]. split; [exact Hl|].
  split; [apply strip_lstrip|]. split; [apply strip_rstrip|].
  unfold _sanitize_filename at 1. unfold truncated, remove_illegal.
  rewrite (Url.filter_all _ _ Hc).
  destruct (decide _) as [H|_]; [lia|].
  apply strip_idemp.
Qed.

(** *** The name [_download_file] settles on *)

Lemma next_free_least (d : fsys) (name_part ext_part : pystr)
    (counter fuel : nat) (p : pystr) :
  next_free d name_part ext_part counter fuel = Some p →
  ∃ k, (counter ≤ k)%nat ∧
       p = candidate name_part ext_part k ∧
       ∀ j, (counter ≤ j < k)%nat →
            is_Some (d !! candidate name_part ext_part j).
Proof.
  revert counter. induction fuel as [|fuel IH]; intros counter; [done|].
  rewrite next_free_S.
  destruct (d !! candidate name_part ext_part counter) eqn:E.
  - intros H. destruct (IH _ H) as (k & Hk & -> & Hall).
    exists k. split; [lia|]. split; [done|].
    intros j Hj. destruct (decide (j = counter)) as [->|Hne].
    + rewrite E. by eexists.
    + apply Hall. lia.
  - intros [= <-]. exists counter. split; [lia|]. split; [done|].
    intros j Hj. lia.
Qed.

(** ** X13.  The collision loop of [_download_file] always ends, and never
    on the name of a file that is there: it keeps the file name when that
    name is free, and otherwise takes [STEM_K.EXT] for the least [K] from 1
    on whose name is free. *)
Theorem free_path_least_counter (d : fsys) (filename : pystr) :
  ∃ p : pystr,
    free_path d filename = Some p ∧
    d !! p = None ∧
    ((d !! filename = None ∧ p = filename) ∨
     (is_Some (d !! filename) ∧
      ∃ k, (1 ≤ k)%nat ∧
        p = stem filename ++ lit "_" ++ str_of_nat k ++ suffix filename ∧
        ∀ j, (1 ≤ j < k)%nat →
          is_Some (d !! (stem filename ++ lit "_" ++ str_of_nat j ++
                         suffix filename)))).
Proof.
  destruct (free_path_total d filename) as (p & Hp & Hfree).
  exists p. split; [exact Hp|]. split; [exact Hfree|].
  unfold free_path in Hp. destruct (d !! filename) eqn:E.
  - right. split; [by eexists|].
    apply next_free_least in Hp as (k & Hk & -> & Hall). by exists k.
  - left. by injection Hp as <-.
Qed.

(** *** What the direct stream writes *)


(** *** The file names of the three handlers that read a title *)

Definition legal (name : pystr) : bool := forallb (λ c, negb (illegal c)) name.

Lemma infer_ext_known (known : list pystr) (video_url : pystr) :
  infer_ext known video_url = lit "mp4" ∨ infer_ext known video_url ∈ known.
Proof.
  unfold infer_ext. destruct (has_char _ _); [|by left].
  destruct (mem _ known) eqn:Hm; [|by left]. right.
  unfold mem in Hm. apply existsb_exists in Hm as (x & Hin & Hx).
  apply eqb_eq in Hx. rewrite Hx. by apply list_elem_of_In.
Qed.

Lemma manual_extract_ext site fallback (known : list pystr) u s v s' :
  _manual_extract site fallback known u s = (Info v, s') →
  ∃ e, vi_ext v = Some e ∧ (e = lit "mp4" ∨ e ∈ known).
Proof.
  unfold _manual_extract.
  destruct (scrape X _ _ _) as [[|urls title] w]; [discriminate|].
  destruct (List.find _ urls) as [video_url|]; [|discriminate].
  intros [= <- <-]. cbn. eexists. split; [done|]. apply infer_ext_known.
Qed.

Lemma extract_then_manual_ext fallback manual (known : list pystr) u s v s' :
  (∀ u s v s', manual u s = (Info v, s') →
     ∃ e, vi_ext v = Some e ∧ (e = lit "mp4" ∨ e ∈ known)) →
  extract_then_manual fallback manual u s = (Info v, s') →
  ∃ e, vi_ext v = Some e ∧ (e = lit "mp4" ∨ e ∈ known).
Proof.
  intros Hm. unfold extract_then_manual.
  destruct (ydl_extract_info X _ _ _) as [[| |i] w]; try apply Hm.
  destruct (truthy (info_url i)); [|apply Hm].
  intros [= <- <-]. cbn. eexists. split; [done|]. by left.
Qed.

(** The extension of the three handlers is one of the eight of the longer
    list. *)
Lemma handler_ext_known h u s v s' :
  h = Baidu ∨ h = Bilibili ∨ h = Pinshan →
  handler h u s = (Info v, s') →
  ∃ e, vi_ext v = Some e ∧ e ∈ pinshan_exts.
Proof.
  assert (Hmp4 : lit "mp4" ∈ pinshan_exts) by (left).
  assert (Hsub : ∀ e : pystr, e ∈ baidu_exts → e ∈ pinshan_exts).
  { intros e He. unfold pinshan_exts.
    apply list_elem_of_In. apply list_elem_of_In in He.
    unfold baidu_exts in He. simpl in *. tauto. }
  intros [-> | [-> | ->]]; cbn [handler].
  - intros H. eapply extract_then_manual_ext in H as (e & He & Hk).
    + exists e. split; [done|]. destruct Hk as [-> | Hk]; [done | by apply Hsub].
    + intros u0 s0 v0 s0' H0. by apply manual_extract_ext in H0.
  - unfold _extract_bilibili_video.
    destruct (ydl_extract_info X _ _ _) as [[| |i] w]; try discriminate.
    destruct (bilibili_url i); [|discriminate].
    intros [= <- <-]. cbn. by eexists.
  - intros H. eapply extract_then_manual_ext in H as (e & He & Hk).
    + exists e. split; [done|]. destruct Hk as [-> | Hk]; done.
    + intros u0 s0 v0 s0' H0. by apply manual_extract_ext in H0.
Qed.

Lemma pinshan_exts_clean (e : pystr) : e ∈ pinshan_exts → legal e = true.
Proof.
  unfold pinshan_exts. intros H.
  repeat (apply elem_of_cons in H as [-> | H]; [by vm_compute|]).
  by apply elem_of_nil in H.
Qed.

(** ** X15.  The Baidu, Bilibili and Pinshan handlers hand over a title
    and an extension from which [_download_file] forms a file name that
    holds none of the nine characters, so in particular no path separator:
    the title is at most 100 characters long, and the extension is one of
    mp4, avi, mov, wmv, flv, webm, m4v and m3u8, whatever the page and the
    links found in it were. *)
Theorem handler_file_name_clean (h : Site) (u : pystr) (s : State W)
    (v : video_info) (s' : State W) :
  h = Baidu ∨ h = Bilibili ∨ h = Pinshan →
  handler h u s = (Info v, s') →
  legal (vi_title v ++ lit "." ++ default (lit "mp4") (vi_ext v)) = true ∧
  (length (vi_title v) ≤ 100)%nat ∧
  default (lit "mp4") (vi_ext v) ∈ pinshan_exts.
Proof.
  intros Hh H.
  destruct (handler_ext_known _ _ _ _ _ Hh H) as (e & He & Hk).
  apply (handler_title_sanitized _ _ _ _ _ Hh) in H.
  rewrite He. cbn [default from_option].
  assert (Ht : legal (vi_title v) = true ∧ (length (vi_title v) ≤ 100)%nat).
  { destruct H as [[t ->] | [-> | ->]].
    - destruct (sanitize_filename_spec t) as (Hc & _ & _ & Hl). done.
    - split; [by vm_compute | vm_compute; lia].
    - split; [by vm_compute | vm_compute; lia]. }
  destruct Ht as [Hc Hl]. split; [|done].
  pose proof (pinshan_exts_clean e Hk) as He'.
  unfold legal in *. rewrite !forallb_app, Hc. unfold id. rewrite He'.
  reflexivity.
Qed.

(** *** The entry point *)

Lemma find_char_split (c : char) (u : pystr) (i : nat) :
  Url.find_char c u = Some i → u = take i u ++ c :: drop (S i) u.
Proof.
  revert i. induction u as [|a u IH]; intros i; [done|].
  cbn [Url.find_char]. destruct (char_eqb a c) eqn:E.
  - intros [= <-]. apply char_eqb_eq in E. by subst a.
  - destruct (Url.find_char c u) as [k|]; [|done].
    intros [= <-]. cbn. f_equal. by apply IH.
Qed.

(** A URL that [_validate_url] accepts holds a scheme, a colon and two
    slashes in a row. *)
Lemma valid_url_separator (u : pystr) :
  _validate_url u = true → contains (lit "://") (Url.clean u) = true.
Proof.
  unfold _validate_url, Url.scheme, Url.netloc, Url.after_scheme. cbv zeta.
  generalize (Url.clean u). intros c.
  rewrite andb_true_iff, !negb_true_iff.
  destruct (Url.find_char 58%N c) as [[|i]|] eqn:Ef; try (by intros [? _]).
  destruct c as [|ch c']; [by intros [? _]|].
  destruct (Url.is_ascii_alpha ch && _) eqn:Ea; [|by intros [? _]].
  intros [_ Hn].
  destruct (startswith (lit "//") _) eqn:Hs; [|done].
  apply startswith_spec in Hs as [t Ht].
  apply find_char_split in Ef. rewrite Ht in Ef.
  apply contains_spec. exists (take (S i) (ch :: c')), t. exact Ef.
Qed.

(** ** X16.  A text without a scheme followed by [://] is refused at the
    door: [download_video] answers [False] without calling yt-dlp, the
    network or any other program, and the directory is as it was. *)
Theorem url_without_scheme_refused (u : pystr) (s : State W) :
  contains (lit "://") (Url.clean u) = false →
  download_video u s = (false, s).
Proof.
  intros Hno. unfold download_video.
  destruct (_validate_url u) eqn:Hv; [|reflexivity].
  apply valid_url_separator in Hv.
  destruct (eq_true_false_abs _ Hv Hno).
Qed.

Lemma mem_elem_of (n : pystr) (l : list pystr) : mem n l = true ↔ n ∈ l.
Proof.
  unfold mem. rewrite existsb_exists. split.
  - intros (x & Hin & Hx). apply eqb_eq in Hx. subst x. by apply list_elem_of_In.
  - intros Hin. exists n. split; [by apply list_elem_of_In | apply eqb_refl].
Qed.

Lemma filter_nonempty {A} (f : A → bool) (l : list A) :
  List.filter f l ≠ [] ↔ ∃ x, x ∈ l ∧ f x = true.
Proof.
  split.
  - destruct (List.filter f l) as [|x r] eqn:E; [done|]. intros _.
    assert (Hin : List.In x (List.filter f l)) by (rewrite E; by left).
    apply List.filter_In in Hin as [Hin Hx]. exists x.
    split; [by apply list_elem_of_In | done].
  - intros (x & Hin & Hx) E.
    assert (Hf : List.In x (List.filter f l)).
    { apply List.filter_In. split; [by apply list_elem_of_In | done]. }
    rewrite E in Hf. destruct Hf.
Qed.

(** ** X17.  [_download_video_with_ytdlp] answers [True] exactly when the
    yt-dlp call returns and a file other than a log is listed after it under
    a name that was not listed before it; only then are the files
    post-processed.  A call that raises, or that leaves the set of names as
    it was (the video was there already, say), counts as a failure, and the
    directory is left as yt-dlp left it. *)
Theorem page_download_needs_new_name (u : pystr) (s : State W)
    (returned : bool) (d : fsys) (w : W) :
  ydl_download X (Some page_format) u (path X (lit "%(title)s.%(ext)s"))
    (fs s) (world s) = (returned, d, w) →
  ((_download_video_with_ytdlp u s).1 = true ↔
   returned = true ∧
   ∃ n : pystr, n ∈ listdir X d ∧ not_log n = true ∧ n ∉ listdir X (fs s)) ∧
  _download_video_with_ytdlp u s =
    (let s1 := {| fs := d; world := w;
                  events := events s ++
                    [EvYdlDownload u (path X (lit "%(title)s.%(ext)s")) returned] |} in
     if (_download_video_with_ytdlp u s).1
     then (true, _post_process_downloaded_files s1)
     else (false, s1)).
Proof.
  intros Hy. unfold _download_video_with_ytdlp. cbv zeta. rewrite Hy.
  destruct returned.
  2:{ split; [|reflexivity]. split; [discriminate | by intros [? _]]. }
  set (before := List.filter not_log (listdir X (fs s))).
  assert (Hnew :
    List.filter (λ n, negb (mem n before)) (List.filter not_log (listdir X d)) ≠ []
    ↔ ∃ n : pystr, n ∈ listdir X d ∧ not_log n = true ∧ n ∉ listdir X (fs s)).
  { rewrite filter_nonempty. split.
    - intros (n & Hin & Hn). apply list_elem_of_In, List.filter_In in Hin as [Hin Hl].
      exists n. split; [by apply list_elem_of_In|]. split; [done|].
      intros Hb. apply negb_true_iff in Hn.
      assert (Hm : mem n before = true).
      { apply mem_elem_of. apply list_elem_of_In, List.filter_In.
        split; [by apply list_elem_of_In | done]. }
      exact (eq_true_false_abs _ Hm Hn).
    - intros (n & Hin & Hl & Hb). exists n. split.
      + apply list_elem_of_In, List.filter_In.
        split; [by apply list_elem_of_In | done].
      + apply negb_true_iff, not_true_is_false. intros Hm.
        apply mem_elem_of, list_elem_of_In, List.filter_In in Hm as [Hm _].
        apply Hb. by apply list_elem_of_In. }
  destruct (List.filter _ (List.filter not_log (listdir X d))) as [|n0 r].
  - split; [|reflexivity]. split; [discriminate|].
    intros [_ Hex]. apply Hnew in Hex. done.
  - split; [|reflexivity]. split; [|done].
    intros _. split; [done|]. by apply Hnew.
Qed.

(** The handler chosen for a host: that of the first site name, in the
    order of the table, that occurs in it. *)
Lemma select_handler_spec (sites : list (pystr * Site)) (dom : pystr) :
  (forallb (λ p, negb (contains p.1 dom)) sites = true ∧
   select_handler sites dom = None) ∨
  (∃ before site h after,
     sites = before ++ (site, h) :: after ∧
     forallb (λ p, negb (contains p.1 dom)) before = true ∧
     contains site dom = true ∧
     select_handler sites dom = Some h).
Proof.
  induction sites as [|[site h] sites IH]; [by left|].
  cbn [forallb select_handler fst].
  destruct (contains site dom) eqn:Hc.
  - right. by exists [], site, h, sites.
  - destruct IH as [[Hall Hn] | (before & st & h' & after & -> & Hb & Hm & Hs)].
    + by left.
    + right. exists ((site, h) :: before), st, h', after.
      cbn [forallb fst]. by rewrite Hc.
Qed.

(** ** X18.  What [download_video] does with a URL that [_validate_url]
    accepts.  The generic yt-dlp attempt comes first, and its success is the
    answer.  When it fails, the handler is chosen by the host of the URL in
    lower case: it is the handler of the first site name, in the order of
    the table, that occurs in the host, and the answer is that of
    [_download_file] on what the handler extracted, or [False] when it
    extracted nothing; when no site name occurs in the host nothing more is
    tried: no handler is run, no page is fetched and no browser is
    started. *)
Theorem download_video_dispatch (u : pystr) (s : State W) :
  _validate_url u = true →
  ((_download_video_with_ytdlp u s).1 = true ∧
   download_video u s = _download_video_with_ytdlp u s) ∨
  ((_download_video_with_ytdlp u s).1 = false ∧
   ((forallb (λ p, negb (contains p.1 (lower (Url.netloc u)))) supported_sites
       = true ∧
     download_video u s = _download_video_with_ytdlp u s) ∨
    (∃ before site h after,
       supported_sites = before ++ (site, h) :: after ∧
       forallb (λ p, negb (contains p.1 (lower (Url.netloc u)))) before = true ∧
       contains site (lower (Url.netloc u)) = true ∧
       download_video u s =
         match handler h u (_download_video_with_ytdlp u s).2 with
         | (Info video_info, s2) => _download_file video_info s2
         | (_, s2) => (false, s2)
         end))).
Proof.
  intros Hv. unfold download_video. rewrite Hv. cbn [negb].
  destruct (_download_video_with_ytdlp u s) as [[|] s1]; [by left|].
  right. split; [reflexivity|]. cbv zeta. cbn [snd].
  destruct (select_handler_spec supported_sites (lower (Url.netloc u)))
    as [[Hall Hn] | (before & site & h & after & Ht & Hb & Hm & Hs)].
  - left. split; [exact Hall|]. by rewrite Hn.
  - right. exists before, site, h, after. rewrite Hs.
    split; [exact Ht|]. split; [exact Hb|]. split; [exact Hm|].
    destruct (handler h u s1) as [[v| |] s2]; reflexivity.
Qed.

(** *** The handlers that go by a video id *)







(** *** The repair, as the directory sees it *)

(** ** X20.  What [_fix_audio_stream] leaves of a file that is there, when
    ffmpeg writes its output whenever it exits with code 0: after such an
    exit the file holds what ffmpeg wrote, and on every other outcome it
    holds what it held; in neither case is the file lost.  No file but the
    file and the temporary copy [STEM_fixed_audio.mp4] is touched, and once
    ffmpeg has exited, with whatever code, no temporary copy is left. *)
Theorem fix_audio_stream_outcome (file : pystr) (s : State W)
    (p : proc) (written : option content) (w : W) :
  ffmpeg X (fix_command file (stem file ++ lit "_fixed_audio.mp4"))
    (fs s) (world s) = (p, written, w) →
  is_Some (fs s !! file) →
  (exit_ok p = true → is_Some written) →
  fs (_fix_audio_stream file s) !! file =
    (if exit_ok p then written else fs s !! file) ∧
  is_Some (fs (_fix_audio_stream file s) !! file) ∧
  (∀ n : pystr, n ≠ file → n ≠ stem file ++ lit "_fixed_audio.mp4" →
     fs (_fix_audio_stream file s) !! n = fs s !! n) ∧
  ((∃ rc out err, p = Exit rc out err) →
   fs (_fix_audio_stream file s) !! (stem file ++ lit "_fixed_audio.mp4") = None) ∧
  events (_fix_audio_stream file s) =
    events s ++ [EvFix file (stem file ++ lit "_fixed_audio.mp4") p].
Proof.
  intros Hff Hs Hc.
  pose proof (fixed_ne_file file) as Hne.
  assert (Hfile : fs (_fix_audio_stream file s) !! file =
                  (if exit_ok p then written else fs s !! file)).
  { unfold _fix_audio_stream. rewrite Hff.
    set (fixed := stem file ++ lit "_fixed_audio.mp4") in *.
    assert (Hd : write_output fixed written (fs s) !! file = fs s !! file).
    { by apply write_output_other. }
    destruct p as [rc o err| | |]; cbn [fs exit_ok]; try exact Hd.
    destruct (rc =? 0) eqn:Hrc; cbn [fs].
    - destruct (Hc Hrc) as [c ->]. cbn [write_output].
      unfold replace_original, os_remove.
      destruct Hs as [c0 Hs0].
      rewrite lookup_insert_ne by done. rewrite Hs0.
      rewrite lookup_delete_ne by done. rewrite lookup_insert_eq.
      apply lookup_insert_eq.
    - rewrite lookup_delete_ne by done. exact Hd. }
  split; [exact Hfile|]. split.
  { rewrite Hfile. destruct (exit_ok p) eqn:E; [by apply Hc | done]. }
  split; [intros n H1 H2; by apply fix_audio_stream_frame|].
  split.
  - intros (rc & o & err & ->). unfold _fix_audio_stream. rewrite Hff.
    set (fixed := stem file ++ lit "_fixed_audio.mp4") in *.
    destruct (rc =? 0) eqn:Hrc; cbn [fs].
    + destruct (Hc Hrc) as [c ->]. cbn [write_output].
      unfold replace_original, os_remove.
      destruct Hs as [c0 Hs0].
      rewrite lookup_insert_ne by done. rewrite Hs0.
      rewrite lookup_delete_ne by done. rewrite lookup_insert_eq.
      rewrite lookup_insert_ne by done. apply lookup_delete_eq.
    + apply lookup_delete_eq.
  - unfold _fix_audio_stream. rewrite Hff.
    destruct p as [rc o err| | |]; [destruct (rc =? 0)|..]; reflexivity.
Qed.

(** *** Which files are verified *)








End Model.

(** *** Closed instances *)


(** A download that left separate streams: a video-only and an audio-only
    file of one base, and an audio-only file of another. *)
Definition clip_video : pystr := lit "clip.f137.mp4".
Definition clip_audio : pystr := lit "clip.f140.m4a".
Definition talk_audio : pystr := lit "talk.f251.m4a".

Definition two_streams : fsys :=
  <[clip_video := [x01]]> (<[clip_audio := [x02]]> (<[talk_audio := [x03]]> ∅)).

(** A machine whose ffmpeg works, and whose ffprobe reports a healthy
    audio stream. *)
Definition healthy_report : pystr := lit "aac,44100,2,128000".

Definition merging : External () :=
  with_ffmpeg offline
    (λ _ _, (Exit 0 [] [], Some [x07]))
    (λ _ _, Exit 0 healthy_report []).


(** A machine whose ffprobe finds no audio stream: it exits with code 0 and
    prints nothing. *)
Definition silent : External () :=
  with_ffmpeg offline
    (λ _ _, (Exit 0 [] [], Some [x09]))
    (λ _ _, Exit 0 [] []).








(** What the run on [two_streams] comes to when ffmpeg works: one merge,
    both sources gone, the lone audio file in place. *)
Lemma two_streams_merged :
  let s' := _post_process_downloaded_files merging (start two_streams) in
  List.filter is_merge (events s') =
    [EvMerge clip_video clip_audio (lit "clip_merged.mp4") (Exit 0 [] [])] ∧
  fs s' !! clip_video = None ∧
  fs s' !! clip_audio = None ∧
  fs s' !! lit "clip_merged.mp4" = Some [x07] ∧
  fs s' !! talk_audio = Some [x03].
Proof. by vm_compute. Qed.


(** C6 as the specification words it fails: the probe finds no audio stream
    in the file, and the file is not given to the repair. *)
Lemma no_audio_stream_not_repaired :
  let s := start {[ lit "movie.mp4" := [x01] ]} in
  let s' := _verify_and_fix_audio silent (lit "movie.mp4") s in
  ffprobe silent (probe_command silent (lit "movie.mp4")) (fs s) (world s) =
    (Exit 0 [] [], ()) ∧
  needs_fix silent (Exit 0 [] []) = false ∧
  events s' = [EvProbe (lit "movie.mp4") (Exit 0 [] [])] ∧
  fs s' !! lit "movie.mp4" = Some [x01].
Proof. by vm_compute. Qed.

(** The theorem on healthy files at a file whose probe reports 44100 Hz
    and 128000 bit/s. *)
Lemma healthy_file_unaltered_witness :
  fs (_verify_and_fix_audio merging (lit "movie.mp4")
        (start {[ lit "movie.mp4" := [x01] ]})) =
    fs (start {[ lit "movie.mp4" := [x01] ]}) ∧
  events (_verify_and_fix_audio merging (lit "movie.mp4")
            (start {[ lit "movie.mp4" := [x01] ]})) =
    events (start {[ lit "movie.mp4" := [x01] ]}) ++
    [EvProbe (lit "movie.mp4") (Exit 0 healthy_report [])].
Proof.
  apply (healthy_file_unaltered merging (lit "movie.mp4")
           (start {[ lit "movie.mp4" := [x01] ]}) healthy_report [] ()
           (lit "aac") (lit "44100") (lit "2") (lit "128000") [] 128000 44100).
  - reflexivity.
  - reflexivity.
  - reflexivity.
  - lia.
  - reflexivity.
  - lia.
Defined.

(** A task on a Bilibili page: yt-dlp cannot download the page, the handler
    resolves it to a media URL on another host, and the direct stream of
    that URL fails. *)
Definition page : pystr := lit "https://www.bilibili.com/video/BV1fp4y1m7Fz".
Definition media : pystr := lit "https://cdn.example.net/stream/clip.mp4".

Definition resolving : External () :=
  with_network offline
    (λ _ d, (NotFound, d))
    (λ _, Extracted {| info_title := Some (lit "clip");
                       info_url := Some media;
                       info_formats := [] |})
    (λ _, HttpRaised).

Definition clip_info : video_info :=
  {| vi_title := lit "clip"; vi_url := media; vi_ext := Some (lit "mp4") |}.

(** The fallback theorem at [clip_info], with no host answering. *)
Lemma fallback_uses_info_url_witness :
  ∃ filepath returned rest,
    free_path (fs (start ∅))
      (vi_title clip_info ++ lit "." ++ default (lit "mp4") (vi_ext clip_info))
      = Some filepath ∧
    events (_download_file resolving clip_info (start ∅)).2 =
      events (start ∅) ++
      [ EvHttpGet (vi_url clip_info);
        EvYdlDownload (vi_url clip_info)
          (path resolving (stem filepath) ++ lit ".%(ext)s") returned ] ++ rest.
Proof.
  apply (fallback_uses_info_url resolving clip_info (start ∅) HttpRaised ()).
  - reflexivity.
  - reflexivity.
Defined.

(** C7 as the specification words it fails: the direct stream of the
    resolved media URL fails, and yt-dlp is then run on that media URL, not
    on the page URL of the task. *)
Lemma fallback_runs_on_media_url :
  events (download_video resolving page (start ∅)).2 =
    [ EvYdlDownload page (lit "downloads/%(title)s.%(ext)s") false;
      EvExtractInfo page;
      EvHttpGet media;
      EvYdlDownload media (lit "downloads/clip.%(ext)s") false ] ∧
  PyStr.eqb media page = false.
Proof. by vm_compute. Qed.

(** A task on a 360kan page whose [id] holds a colon: yt-dlp cannot
    download the page through the library, the yt-dlp program run by the
    handler exits with code 0, and the page is then fetched directly. *)
Definition kan_page : pystr := lit "https://tv.360kan.com/player?id=a:b".

Definition serving : External () :=
  with_network offline
    (λ _ d, (Exit 0 [] [], d))
    (λ _, ExtractRaised)
    (λ _, HttpBody None [[x01; x02]] true).

(** ** C10, at a 360kan page.  The sanitiser does what the claim says on
    every text ([sanitize_filename_spec]), and the titles of three handlers
    pass through it ([handler_title_sanitized]); the title of the 360kan
    handler does not: the colon of the video id stays in the title, and the
    file is written under that name. *)
Theorem kan360_title_reaches_file_name :
  ∃ v s1 s2,
    handler serving Kan360 kan_page (start ∅) = (Info v, s1) ∧
    vi_title v = kan360_title_prefix ++ lit "a:b" ∧
    _sanitize_filename (vi_title v) = kan360_title_prefix ++ lit "ab" ∧
    download_video serving kan_page (start ∅) = (true, s2) ∧
    fs s2 !! (kan360_title_prefix ++ lit "a:b.mp4") = Some [x01; x02].
Proof.
  eexists _, _, _. split; [by vm_compute|].
  split; [by vm_compute|]. split; [by vm_compute|].
  split; [by vm_compute|]. by vm_compute.
Qed.

(** ** C3, at a URL whose query names a site.  The two [detect_site]
    functions look for the domain in the whole URL and answer [bilibili],
    although the host, [example.org], holds no domain of either table;
    [download_video], which looks in the host, finds no handler. *)
Theorem domain_matched_outside_host :
  let u := lit "https://example.org/watch?from=bilibili.com" in
  Url.netloc u = lit "example.org" ∧
  forallb (λ p, negb (contains (Optimized.domain p.2) (Url.netloc u)))
    (Optimized.supported_sites Optimized.config) = true ∧
  Optimized.detect_site Optimized.config u = lit "bilibili" ∧
  Config.detect_site u = lit "bilibili" ∧
  select_handler supported_sites (lower (Url.netloc u)) = None.
Proof. by vm_compute. Qed.


(** *** Closed instances of the further theorems *)

(** A directory that holds [clip.mp4] already. *)
Definition one_clip : fsys := {[ lit "clip.mp4" := [x05] ]}.



(** What the Bilibili handler makes of [page] when yt-dlp resolves it. *)
Lemma resolving_handler :
  handler resolving Bilibili page (start ∅) =
    (Info clip_info,
     {| fs := ∅; world := (); events := [EvExtractInfo page] |}).
Proof. by vm_compute. Qed.

(** The theorem on file names at the Bilibili handler. *)
Lemma handler_file_name_clean_witness :
  legal (vi_title clip_info ++ lit "." ++
         default (lit "mp4") (vi_ext clip_info)) = true ∧
  (length (vi_title clip_info) ≤ 100)%nat ∧
  default (lit "mp4") (vi_ext clip_info) ∈ pinshan_exts.
Proof.
  exact (handler_file_name_clean resolving Bilibili page (start ∅) clip_info
           {| fs := ∅; world := (); events := [EvExtractInfo page] |}
           (or_intror (or_introl eq_refl)) resolving_handler).
Defined.

(** An address typed without its scheme. *)
Definition bare_address : pystr := lit "www.bilibili.com/video/BV1fp4y1m7Fz".

Lemma bare_address_plain :
  contains (lit "://") (Url.clean bare_address) = false.
Proof. by vm_compute. Qed.

(** The theorem on texts without a scheme at [bare_address], on a machine
    where everything would work. *)
Lemma url_without_scheme_refused_witness :
  download_video serving bare_address (start one_clip) = (false, start one_clip).
Proof.
  exact (url_without_scheme_refused serving bare_address (start one_clip)
           bare_address_plain).
Defined.

(** A machine whose yt-dlp library call leaves [clip.mp4] and returns; no
    ffprobe is installed. *)
Definition fetching : External () := {|
  path := path offline;
  ffmpeg_path := ffmpeg_path offline;
  ffprobe_path := ffprobe_path offline;
  py_int := py_int offline;
  glob_match := glob_match offline;
  listdir := listdir offline;
  ffmpeg := ffmpeg offline;
  ffprobe := ffprobe offline;
  ytdlp_cli := ytdlp_cli offline;
  ydl_download := λ _ _ _ d w, (true, <[lit "clip.mp4" := [x01]]> d, w);
  ydl_extract_info := ydl_extract_info offline;
  http_get_stream := http_get_stream offline;
  scrape := scrape offline;
  selenium := selenium offline;
  sohu_video_id := sohu_video_id offline;
  query_id := query_id offline
|}.

Lemma fetching_download :
  ydl_download fetching (Some page_format) page
    (path fetching (lit "%(title)s.%(ext)s"))
    (fs (start ∅)) (world (start ∅)) =
    (true, {[ lit "clip.mp4" := [x01] ]}, ()).
Proof. by vm_compute. Qed.

(** The theorem on the page download in an empty directory. *)
Lemma page_download_needs_new_name_witness :
  ((_download_video_with_ytdlp fetching page (start ∅)).1 = true ↔
   true = true ∧
   ∃ n : pystr, n ∈ listdir fetching {[ lit "clip.mp4" := [x01] ]} ∧
     not_log n = true ∧ n ∉ listdir fetching (fs (start ∅))) ∧
  _download_video_with_ytdlp fetching page (start ∅) =
    (let s1 := {| fs := {[ lit "clip.mp4" := [x01] ]}; world := ();
                  events := events (start ∅) ++
                    [EvYdlDownload page
                       (path fetching (lit "%(title)s.%(ext)s")) true] |} in
     if (_download_video_with_ytdlp fetching page (start ∅)).1
     then (true, _post_process_downloaded_files fetching s1)
     else (false, s1)).
Proof.
  exact (page_download_needs_new_name fetching page (start ∅) true
           {[ lit "clip.mp4" := [x01] ]} () fetching_download).
Defined.

(** The same run, in full: the call answers [True], and the new file is
    probed. *)
Lemma fetching_run :
  _download_video_with_ytdlp fetching page (start ∅) =
    (true,
     {| fs := {[ lit "clip.mp4" := [x01] ]}; world := ();
        events := [ EvYdlDownload page (lit "downloads/%(title)s.%(ext)s") true;
                    EvProbe (lit "clip.mp4") NotFound ] |}).
Proof. by vm_compute. Qed.

Lemma page_valid : _validate_url page = true.
Proof. by vm_compute. Qed.

(** The theorem on the entry point at the Bilibili page [page], which
    yt-dlp cannot download and the handler resolves. *)
Lemma download_video_dispatch_witness :
  ((_download_video_with_ytdlp resolving page (start ∅)).1 = true ∧
   download_video resolving page (start ∅) =
     _download_video_with_ytdlp resolving page (start ∅)) ∨
  ((_download_video_with_ytdlp resolving page (start ∅)).1 = false ∧
   ((forallb (λ p, negb (contains p.1 (lower (Url.netloc page)))) supported_sites
       = true ∧
     download_video resolving page (start ∅) =
       _download_video_with_ytdlp resolving page (start ∅)) ∨
    (∃ before site h after,
       supported_sites = before ++ (site, h) :: after ∧
       forallb (λ p, negb (contains p.1 (lower (Url.netloc page)))) before = true ∧
       contains site (lower (Url.netloc page)) = true ∧
       download_video resolving page (start ∅) =
         match handler resolving h page
                 (_download_video_with_ytdlp resolving page (start ∅)).2 with
         | (Info video_info, s2) => _download_file resolving video_info s2
         | (_, s2) => (false, s2)
         end))).
Proof.
  exact (download_video_dispatch resolving page (start ∅) page_valid).
Defined.



(** A directory with one whole MP4 file. *)
Definition one_movie : fsys := {[ lit "movie.mp4" := [x01] ]}.

Lemma merging_repair :
  ffmpeg merging
    (fix_command merging (lit "movie.mp4")
       (stem (lit "movie.mp4") ++ lit "_fixed_audio.mp4"))
    (fs (start one_movie)) (world (start one_movie)) =
    (Exit 0 [] [], Some [x07], ()) ∧
  is_Some (fs (start one_movie) !! lit "movie.mp4").
Proof. split; [by vm_compute|]. exists [x01]. by vm_compute. Qed.

(** The theorem on the repair at [movie.mp4], when ffmpeg works. *)
Lemma fix_audio_stream_outcome_witness :
  fs (_fix_audio_stream merging (lit "movie.mp4") (start one_movie))
    !! lit "movie.mp4" =
    (if exit_ok (Exit 0 [] []) then Some [x07]
     else fs (start one_movie) !! lit "movie.mp4") ∧
  is_Some (fs (_fix_audio_stream merging (lit "movie.mp4") (start one_movie))
             !! lit "movie.mp4") ∧
  (∀ n : pystr, n ≠ lit "movie.mp4" →
     n ≠ stem (lit "movie.mp4") ++ lit "_fixed_audio.mp4" →
     fs (_fix_audio_stream merging (lit "movie.mp4") (start one_movie)) !! n =
       fs (start one_movie) !! n) ∧
  ((∃ rc out err, Exit 0 [] [] = Exit rc out err) →
   fs (_fix_audio_stream merging (lit "movie.mp4") (start one_movie))
     !! (stem (lit "movie.mp4") ++ lit "_fixed_audio.mp4") = None) ∧
  events (_fix_audio_stream merging (lit "movie.mp4") (start one_movie)) =
    events (start one_movie) ++
    [EvFix (lit "movie.mp4")
       (stem (lit "movie.mp4") ++ lit "_fixed_audio.mp4") (Exit 0 [] [])].
Proof.
  exact (fix_audio_stream_outcome merging (lit "movie.mp4") (start one_movie)
           (Exit 0 [] []) (Some [x07]) ()
           (proj1 merging_repair) (proj2 merging_repair)
           (λ _, ex_intro _ [x07] eq_refl)).
Defined.
End Downloader.
